(** * LTTng-UST application contexts: dynamic type table and context providers

    A shallow embedding of [src/liblttng-ust/lttng-ust-dynamic-type.c] and
    [src/liblttng-ust/lttng-context-provider.c].

    - C integers are [Z]; a pointer that may be NULL is an [option].
    - A C string is the [string] of its characters before the terminating
      NUL; [strlen], [strchr] and [strncmp] are written out on that
      representation.
    - A C array built from designated initialisers is a [list] of optional
      slots, filled index by index.
    - The provider hash table is a finite map from bucket index to the
      bucket's chain (a list, head first).
    - Effects (the lock, the two default-binding slot sets, the allocator)
      are threaded explicitly; each state carries a trace of the calls made,
      so that the order of effects can be stated. *)

From Stdlib Require Import ZArith String Ascii Lia.
From stdpp Require Import base option list gmap strings finite.

Local Open Scope string_scope.
Local Open Scope Z_scope.

(** ** Part 1: the dynamic type table (lttng-ust-dynamic-type.c) *)

(** Modelled from the spec: [enum lttng_ust_dynamic_type] is declared in
    [ust-dynamic-type.h], which is not among the files modelled here.  The
    spec's data model lists the closed enumeration in this order (none,
    int8, int16, int32, int64, uint8, uint16, uint32, uint64, float32,
    float64, string); the constructor names are the ones the C file uses as
    designators. *)
Inductive lttng_ust_dynamic_type : Type :=
  | LTTNG_UST_DYNAMIC_TYPE_NONE
  | LTTNG_UST_DYNAMIC_TYPE_S8
  | LTTNG_UST_DYNAMIC_TYPE_S16
  | LTTNG_UST_DYNAMIC_TYPE_S32
  | LTTNG_UST_DYNAMIC_TYPE_S64
  | LTTNG_UST_DYNAMIC_TYPE_U8
  | LTTNG_UST_DYNAMIC_TYPE_U16
  | LTTNG_UST_DYNAMIC_TYPE_U32
  | LTTNG_UST_DYNAMIC_TYPE_U64
  | LTTNG_UST_DYNAMIC_TYPE_FLOAT
  | LTTNG_UST_DYNAMIC_TYPE_DOUBLE
  | LTTNG_UST_DYNAMIC_TYPE_STRING.

(** The integer value of an enumerator: C numbers them from 0 in declaration
    order. *)
Definition ordinal (k : lttng_ust_dynamic_type) : Z :=
  match k with
  | LTTNG_UST_DYNAMIC_TYPE_NONE => 0
  | LTTNG_UST_DYNAMIC_TYPE_S8 => 1
  | LTTNG_UST_DYNAMIC_TYPE_S16 => 2
  | LTTNG_UST_DYNAMIC_TYPE_S32 => 3
  | LTTNG_UST_DYNAMIC_TYPE_S64 => 4
  | LTTNG_UST_DYNAMIC_TYPE_U8 => 5
  | LTTNG_UST_DYNAMIC_TYPE_U16 => 6
  | LTTNG_UST_DYNAMIC_TYPE_U32 => 7
  | LTTNG_UST_DYNAMIC_TYPE_U64 => 8
  | LTTNG_UST_DYNAMIC_TYPE_FLOAT => 9
  | LTTNG_UST_DYNAMIC_TYPE_DOUBLE => 10
  | LTTNG_UST_DYNAMIC_TYPE_STRING => 11
  end.

(** Modelled from the spec: the enumeration's last member, the number of
    dynamic kinds (the enumerator that follows the twelve kinds). *)
Definition _NR_LTTNG_UST_DYNAMIC_TYPES : Z := 12.

Definition all_dynamic_types : list lttng_ust_dynamic_type :=
  [ LTTNG_UST_DYNAMIC_TYPE_NONE; LTTNG_UST_DYNAMIC_TYPE_S8;
    LTTNG_UST_DYNAMIC_TYPE_S16; LTTNG_UST_DYNAMIC_TYPE_S32;
    LTTNG_UST_DYNAMIC_TYPE_S64; LTTNG_UST_DYNAMIC_TYPE_U8;
    LTTNG_UST_DYNAMIC_TYPE_U16; LTTNG_UST_DYNAMIC_TYPE_U32;
    LTTNG_UST_DYNAMIC_TYPE_U64; LTTNG_UST_DYNAMIC_TYPE_FLOAT;
    LTTNG_UST_DYNAMIC_TYPE_DOUBLE; LTTNG_UST_DYNAMIC_TYPE_STRING ].

(** The C types named in the table's macro applications. *)
Inductive c_type : Type :=
  | int8_t | int16_t | int32_t | int64_t
  | uint8_t | uint16_t | uint32_t | uint64_t
  | c_char | c_int | c_float | c_double.

(** [lttng_is_signed_type] on the one type the enumeration literals have:
    the values 0 .. 11 are plain [int] constants. *)
Definition lttng_is_signed_type (t : c_type) : bool :=
  match t with
  | int8_t | int16_t | int32_t | int64_t | c_int => true
  | _ => false
  end.

Inductive host_byte_order : Type := BYTE_ORDER.
Inductive lttng_ust_string_encoding : Type := lttng_ust_string_encoding_UTF8.

Record lttng_ust_enum_value : Type := {
  signedness : bool;
  value : Z
}.

(** [struct lttng_ust_enum_entry]: a labelled range [start .. end]. *)
Record lttng_ust_enum_entry : Type := {
  start : lttng_ust_enum_value;
  end_ : lttng_ust_enum_value;
  entry_string : string
}.

Record lttng_ust_enum_desc : Type := {
  enum_name : string;
  entries : list (option lttng_ust_enum_entry);
  nr_entries : Z
}.

(** Type descriptors.  The macros [lttng_ust_type_integer_define] and
    [lttng_ust_type_float_define] are kept as applications to the arguments
    the table gives them. *)
Inductive lttng_ust_type_common : Type :=
  | lttng_ust_type_struct (nr_fields alignment : Z)
  | lttng_ust_type_integer_define (t : c_type) (order : host_byte_order) (base : Z)
  | lttng_ust_type_float_define (t : c_type)
  | lttng_ust_type_string (encoding : lttng_ust_string_encoding)
  | lttng_ust_type_enum (desc : lttng_ust_enum_desc)
                        (container_type : lttng_ust_type_common)
  | lttng_ust_type_dynamic.

(** [struct lttng_ust_event_field]; [name] is NULL in the tag field. *)
Record lttng_ust_event_field : Type := {
  name : option string;
  type : lttng_ust_type_common;
  nowrite : Z
}.

#[global] Instance c_type_eq_dec : EqDecision c_type.
Proof. solve_decision. Defined.
#[global] Instance host_byte_order_eq_dec : EqDecision host_byte_order.
Proof. solve_decision. Defined.
#[global] Instance string_encoding_eq_dec : EqDecision lttng_ust_string_encoding.
Proof. solve_decision. Defined.
#[global] Instance enum_value_eq_dec : EqDecision lttng_ust_enum_value.
Proof. solve_decision. Defined.
#[global] Instance enum_entry_eq_dec : EqDecision lttng_ust_enum_entry.
Proof. solve_decision. Defined.
#[global] Instance enum_desc_eq_dec : EqDecision lttng_ust_enum_desc.
Proof. solve_decision. Defined.
#[global] Instance type_common_eq_dec : EqDecision lttng_ust_type_common.
Proof. solve_decision. Defined.
#[global] Instance event_field_eq_dec : EqDecision lttng_ust_event_field.
Proof. solve_decision. Defined.

(** An array of [n] pointers given by designated initialisers
    [[i] = v, ...]: slots without an initialiser stay NULL. *)
Definition designated_array {A : Type} (n : Z) (inits : list (Z * A))
  : list (option A) :=
  foldl (fun arr iv => <[Z.to_nat (fst iv) := Some (snd iv)]> arr)
        (replicate (Z.to_nat n) None) inits.

(** The macro [ctf_enum_value] as this file defines it: a range whose two
    ends are both [_value], signed as the literal's type is. *)
Definition ctf_enum_value (_string : string) (_value : Z) : lttng_ust_enum_entry :=
  {| start := {| signedness := lttng_is_signed_type c_int; value := _value |};
     end_ := {| signedness := lttng_is_signed_type c_int; value := _value |};
     entry_string := _string |}.

Definition dt_enum : list (option lttng_ust_enum_entry) :=
  designated_array _NR_LTTNG_UST_DYNAMIC_TYPES
    [ (ordinal LTTNG_UST_DYNAMIC_TYPE_NONE, ctf_enum_value "_none" 0);
      (ordinal LTTNG_UST_DYNAMIC_TYPE_S8, ctf_enum_value "_int8" 1);
      (ordinal LTTNG_UST_DYNAMIC_TYPE_S16, ctf_enum_value "_int16" 2);
      (ordinal LTTNG_UST_DYNAMIC_TYPE_S32, ctf_enum_value "_int32" 3);
      (ordinal LTTNG_UST_DYNAMIC_TYPE_S64, ctf_enum_value "_int64" 4);
      (ordinal LTTNG_UST_DYNAMIC_TYPE_U8, ctf_enum_value "_uint8" 5);
      (ordinal LTTNG_UST_DYNAMIC_TYPE_U16, ctf_enum_value "_uint16" 6);
      (ordinal LTTNG_UST_DYNAMIC_TYPE_U32, ctf_enum_value "_uint32" 7);
      (ordinal LTTNG_UST_DYNAMIC_TYPE_U64, ctf_enum_value "_uint64" 8);
      (ordinal LTTNG_UST_DYNAMIC_TYPE_FLOAT, ctf_enum_value "_float" 9);
      (ordinal LTTNG_UST_DYNAMIC_TYPE_DOUBLE, ctf_enum_value "_double" 10);
      (ordinal LTTNG_UST_DYNAMIC_TYPE_STRING, ctf_enum_value "_string" 11) ].

(** [LTTNG_ARRAY_SIZE]: the number of slots of an array. *)
Definition LTTNG_ARRAY_SIZE {A : Type} (arr : list A) : Z := Z.of_nat (length arr).

Definition dt_enum_desc : lttng_ust_enum_desc :=
  {| enum_name := "dynamic_type_enum";
     entries := dt_enum;
     nr_entries := LTTNG_ARRAY_SIZE dt_enum |}.

Definition dt_var_fields : list (option lttng_ust_event_field) :=
  designated_array _NR_LTTNG_UST_DYNAMIC_TYPES
    [ (ordinal LTTNG_UST_DYNAMIC_TYPE_NONE,
       {| name := Some "none"; type := lttng_ust_type_struct 0 0; nowrite := 0 |});
      (ordinal LTTNG_UST_DYNAMIC_TYPE_S8,
       {| name := Some "int8";
          type := lttng_ust_type_integer_define int8_t BYTE_ORDER 10;
          nowrite := 0 |});
      (ordinal LTTNG_UST_DYNAMIC_TYPE_S16,
       {| name := Some "int16";
          type := lttng_ust_type_integer_define int16_t BYTE_ORDER 10;
          nowrite := 0 |});
      (ordinal LTTNG_UST_DYNAMIC_TYPE_S32,
       {| name := Some "int32";
          type := lttng_ust_type_integer_define int32_t BYTE_ORDER 10;
          nowrite := 0 |});
      (ordinal LTTNG_UST_DYNAMIC_TYPE_S64,
       {| name := Some "int64";
          type := lttng_ust_type_integer_define int64_t BYTE_ORDER 10;
          nowrite := 0 |});
      (ordinal LTTNG_UST_DYNAMIC_TYPE_U8,
       {| name := Some "uint8";
          type := lttng_ust_type_integer_define uint8_t BYTE_ORDER 10;
          nowrite := 0 |});
      (ordinal LTTNG_UST_DYNAMIC_TYPE_U16,
       {| name := Some "uint16";
          type := lttng_ust_type_integer_define uint16_t BYTE_ORDER 10;
          nowrite := 0 |});
      (ordinal LTTNG_UST_DYNAMIC_TYPE_U32,
       {| name := Some "uint32";
          type := lttng_ust_type_integer_define uint32_t BYTE_ORDER 10;
          nowrite := 0 |});
      (ordinal LTTNG_UST_DYNAMIC_TYPE_U64,
       {| name := Some "uint64";
          type := lttng_ust_type_integer_define uint64_t BYTE_ORDER 10;
          nowrite := 0 |});
      (ordinal LTTNG_UST_DYNAMIC_TYPE_FLOAT,
       {| name := Some "float"; type := lttng_ust_type_float_define c_float;
          nowrite := 0 |});
      (ordinal LTTNG_UST_DYNAMIC_TYPE_DOUBLE,
       {| name := Some "double"; type := lttng_ust_type_float_define c_double;
          nowrite := 0 |});
      (ordinal LTTNG_UST_DYNAMIC_TYPE_STRING,
       {| name := Some "string";
          type := lttng_ust_type_string lttng_ust_string_encoding_UTF8;
          nowrite := 0 |}) ].

Definition dt_enum_field : lttng_ust_event_field :=
  {| name := None;
     type := lttng_ust_type_enum dt_enum_desc
               (lttng_ust_type_integer_define c_char BYTE_ORDER 10);
     nowrite := 0 |}.

(** [lttng_ust_dynamic_type_field]: NULL outside the table's index range,
    the table's slot otherwise.  [value] is an [int64_t]; the comparisons
    are exact on it. *)
Definition lttng_ust_dynamic_type_field (value : Z) : option lttng_ust_event_field :=
  if (value >=? _NR_LTTNG_UST_DYNAMIC_TYPES) || (value <? 0) then None
  else mjoin (dt_var_fields !! Z.to_nat value).

(** [lttng_ust_dynamic_type_choices]: the out-parameters and the return
    value. *)
Definition lttng_ust_dynamic_type_choices
  : Z * Z * list (option lttng_ust_event_field) :=
  (0, _NR_LTTNG_UST_DYNAMIC_TYPES, dt_var_fields).

Definition lttng_ust_dynamic_type_tag_field : lttng_ust_event_field := dt_enum_field.

(** The position of a field descriptor in the table: the index of the first
    slot that holds it. *)
Definition field_ordinal (f : lttng_ust_event_field) : option Z :=
  (fun r => Z.of_nat (fst r)) <$> list_find (fun slot => slot = Some f) dt_var_fields.

(** ** Part 2: the provider registry and the context field builder
       (lttng-context-provider.c) *)

(** *** errno values (Linux [errno.h]) *)
Definition ENOMEM : Z := 12.
Definition EBUSY : Z := 16.
Definition EEXIST : Z := 17.
Definition EINVAL : Z := 22.

(** *** C strings *)

Definition NUL : ascii := "000"%char.

(** The character a [char *] points at: the terminating NUL once the
    characters are used up. *)
Definition char_at (s : string) : ascii :=
  match s with
  | EmptyString => NUL
  | String c _ => c
  end.

Definition str_tail (s : string) : string :=
  match s with
  | EmptyString => EmptyString
  | String _ rest => rest
  end.

Definition strlen (s : string) : nat := String.length s.

(** [strchr s c]: the offset of the first [c] in [s] ([end - name] in the
    source), or NULL. *)
Fixpoint strchr (s : string) (c : ascii) : option nat :=
  match s with
  | EmptyString => None
  | String a rest => if Ascii.eqb a c then Some 0%nat else S <$> strchr rest c
  end.

(** [strncmp s1 s2 n]: compares at most [n] characters and stops at the
    first difference or at a NUL; the result is the difference of the two
    characters as [unsigned char]. *)
Fixpoint strncmp (s1 s2 : string) (n : nat) : Z :=
  match n with
  | O => 0
  | S n' =>
      let c1 := char_at s1 in
      let c2 := char_at s2 in
      if negb (Ascii.eqb c1 c2)
      then Z.of_nat (nat_of_ascii c1) - Z.of_nat (nat_of_ascii c2)
      else if Ascii.eqb c1 NUL then 0
      else strncmp (str_tail s1) (str_tail s2) n'
  end.

(** The [len] bytes at [key]: what a (pointer, length) pair denotes. *)
Fixpoint key_bytes (key : string) (len : nat) : string :=
  match len, key with
  | S len', String c rest => String c (key_bytes rest len')
  | _, _ => EmptyString
  end.

(** *** Callbacks *)

(** Modelled from the spec: the callback signatures are declared in
    [ust-context-provider.h], which is not among the files modelled here.
    Section 6 of the spec gives them as [size: fn(context) -> bytecount],
    [record: fn(context, sink)] and [value: fn(context) -> (kind, rawBits)];
    the context is an opaque value and the sink is the sequence of bytes
    written so far. *)
Definition app_context : Type := Z.
Definition sink : Type := list Z.
Definition get_size_fn : Type := app_context -> Z.
Definition record_fn : Type := app_context -> sink -> sink.
Definition get_value_fn : Type := app_context -> lttng_ust_dynamic_type * Z.

(** Modelled from the spec: the no-op stand-ins [lttng_ust_dummy_get_size],
    [lttng_ust_dummy_record] and [lttng_ust_dummy_get_value] are defined
    outside the files modelled here.  The spec describes them as [size -> 0],
    [record -> writes nothing], [value -> kind none]. *)
Definition lttng_ust_dummy_get_size : get_size_fn := fun _ => 0.
Definition lttng_ust_dummy_record : record_fn := fun _ out => out.
Definition lttng_ust_dummy_get_value : get_value_fn :=
  fun _ => (LTTNG_UST_DYNAMIC_TYPE_NONE, 0).

(** [struct lttng_ust_context_provider].  [provider_addr] is the address of
    the caller's struct: the hash chains link that very struct through its
    embedded node, so a provider is identified by where it lives. *)
Record lttng_ust_context_provider : Type := {
  provider_addr : Z;
  provider_name : string;
  provider_get_size : get_size_fn;
  provider_record : record_fn;
  provider_get_value : get_value_fn
}.

(** A callback triple as the default-binding slots hold it. *)
Record callback_triple : Type := {
  cb_get_size : get_size_fn;
  cb_record : record_fn;
  cb_get_value : get_value_fn
}.

Definition dummy_triple : callback_triple :=
  {| cb_get_size := lttng_ust_dummy_get_size;
     cb_record := lttng_ust_dummy_record;
     cb_get_value := lttng_ust_dummy_get_value |}.

Definition provider_triple (p : lttng_ust_context_provider) : callback_triple :=
  {| cb_get_size := provider_get_size p;
     cb_record := provider_record p;
     cb_get_value := provider_get_value p |}.

(** *** The registry state *)

Definition CONTEXT_PROVIDER_HT_BITS : Z := 12.
Definition CONTEXT_PROVIDER_HT_SIZE : Z := Z.shiftl 1 CONTEXT_PROVIDER_HT_BITS.

(** The calls the registry makes to its collaborators, in order. *)
Inductive ust_call : Type :=
  | call_fixup_tls
  | call_ust_lock (ret : Z)
  | call_ust_unlock
  | call_hlist_add_head (bucket : Z) (addr : Z)
  | call_hlist_del (addr : Z)
  | call_set_session_provider (pname : string)
  | call_set_event_notifier_group_provider (pname : string).

(** [context_provider_ht] is the file's static table (bucket index to
    chain, head first).  Modelled from the spec: the two external
    default-binding slot sets, which the setters
    [lttng_ust_context_set_session_provider] and
    [lttng_ust_context_set_event_notifier_group_provider] write, are maps
    from provider name to callback triple. *)
Record ust_state : Type := {
  context_provider_ht : gmap Z (list lttng_ust_context_provider);
  session_providers : gmap string callback_triple;
  event_notifier_group_providers : gmap string callback_triple;
  calls : list ust_call
}.

Definition ust_init : ust_state :=
  {| context_provider_ht := ∅;
     session_providers := ∅;
     event_notifier_group_providers := ∅;
     calls := [] |}.

Definition log_call (c : ust_call) (s : ust_state) : ust_state :=
  {| context_provider_ht := context_provider_ht s;
     session_providers := session_providers s;
     event_notifier_group_providers := event_notifier_group_providers s;
     calls := calls s ++ [c] |}.

Definition lttng_ust_fixup_tls (s : ust_state) : ust_state :=
  log_call call_fixup_tls s.

(** [ust_lock] is defined outside the files modelled here; what it returns is
    an input of the model ([lock_ret], non-zero when the lock cannot be
    obtained). *)
Definition ust_lock (lock_ret : Z) (s : ust_state) : Z * ust_state :=
  (lock_ret, log_call (call_ust_lock lock_ret) s).

Definition ust_unlock (s : ust_state) : ust_state :=
  log_call call_ust_unlock s.

(** The chain of a bucket ([&context_provider_ht.table[i]]). *)
Definition hlist_head (ht : gmap Z (list lttng_ust_context_provider)) (i : Z)
  : list lttng_ust_context_provider :=
  default [] (ht !! i).

Definition cds_hlist_add_head (p : lttng_ust_context_provider) (i : Z)
    (s : ust_state) : ust_state :=
  {| context_provider_ht :=
       <[i := p :: hlist_head (context_provider_ht s) i]> (context_provider_ht s);
     session_providers := session_providers s;
     event_notifier_group_providers := event_notifier_group_providers s;
     calls := calls s ++ [call_hlist_add_head i (provider_addr p)] |}.

(** [cds_hlist_del] unlinks the node from the chain it is on.
    Precondition: the node is linked.  The C primitive writes through the
    node's own links whatever they hold, so on a node that is on no chain
    it corrupts a chain or faults; the model says nothing about that case
    (it returns the table unchanged there), and every statement about a
    call that reaches [cds_hlist_del] assumes the provider is on a
    chain. *)
Definition cds_hlist_del (p : lttng_ust_context_provider) (s : ust_state)
  : ust_state :=
  {| context_provider_ht :=
       filter (fun q => provider_addr q ≠ provider_addr p)
         <$> context_provider_ht s;
     session_providers := session_providers s;
     event_notifier_group_providers := event_notifier_group_providers s;
     calls := calls s ++ [call_hlist_del (provider_addr p)] |}.

Definition lttng_ust_context_set_session_provider (pname : string)
    (gs : get_size_fn) (rec : record_fn) (gv : get_value_fn)
    (s : ust_state) : ust_state :=
  {| context_provider_ht := context_provider_ht s;
     session_providers :=
       <[pname := {| cb_get_size := gs; cb_record := rec; cb_get_value := gv |}]>
         (session_providers s);
     event_notifier_group_providers := event_notifier_group_providers s;
     calls := calls s ++ [call_set_session_provider pname] |}.

Definition lttng_ust_context_set_event_notifier_group_provider (pname : string)
    (gs : get_size_fn) (rec : record_fn) (gv : get_value_fn)
    (s : ust_state) : ust_state :=
  {| context_provider_ht := context_provider_ht s;
     session_providers := session_providers s;
     event_notifier_group_providers :=
       <[pname := {| cb_get_size := gs; cb_record := rec; cb_get_value := gv |}]>
         (event_notifier_group_providers s);
     calls := calls s ++ [call_set_event_notifier_group_provider pname] |}.

Section Registry.

(** [jhash] is defined in [jhash.h], which is not among the files modelled
    here: the hash function is a parameter.  It receives the [length] bytes
    at [key] and the seed. *)
Variable jhash : string -> Z -> Z.

Definition bucket_of (key : string) : Z :=
  Z.land (jhash key 0) (CONTEXT_PROVIDER_HT_SIZE - 1).

Definition lookup_provider_by_name
    (ht : gmap Z (list lttng_ust_context_provider)) (name : string)
  : option lttng_ust_context_provider :=
  let len :=
    match strchr name ":" with
    | Some e => e
    | None => strlen name
    end in
  let hash := jhash (key_bytes name len) 0 in
  let head := hlist_head ht (Z.land hash (CONTEXT_PROVIDER_HT_SIZE - 1)) in
  List.find (fun provider => strncmp (provider_name provider) name len =? 0) head.

Definition lttng_ust_context_provider_register (lock_ret : Z)
    (provider : lttng_ust_context_provider) (s : ust_state) : Z * ust_state :=
  let name_len := strlen (provider_name provider) in
  let s := lttng_ust_fixup_tls s in
  if negb (strncmp "$app." (provider_name provider) (strlen "$app.") =? 0)
  then (- EINVAL, s)
  else
    match strchr (provider_name provider) ":" with
    | Some _ => (- EINVAL, s)
    | None =>
        let '(locked, s) := ust_lock lock_ret s in
        if negb (locked =? 0) then (- EBUSY, ust_unlock s)
        else
          match lookup_provider_by_name (context_provider_ht s)
                  (provider_name provider) with
          | Some _ => (- EBUSY, ust_unlock s)
          | None =>
              let hash := jhash (key_bytes (provider_name provider) name_len) 0 in
              let s := cds_hlist_add_head provider
                         (Z.land hash (CONTEXT_PROVIDER_HT_SIZE - 1)) s in
              let s := lttng_ust_context_set_session_provider
                         (provider_name provider)
                         (provider_get_size provider) (provider_record provider)
                         (provider_get_value provider) s in
              let s := lttng_ust_context_set_event_notifier_group_provider
                         (provider_name provider)
                         (provider_get_size provider) (provider_record provider)
                         (provider_get_value provider) s in
              (0, ust_unlock s)
          end
    end.

Definition lttng_ust_context_provider_unregister (lock_ret : Z)
    (provider : lttng_ust_context_provider) (s : ust_state) : ust_state :=
  let s := lttng_ust_fixup_tls s in
  let '(locked, s) := ust_lock lock_ret s in
  if negb (locked =? 0) then ust_unlock s
  else
    let s := lttng_ust_context_set_session_provider (provider_name provider)
               lttng_ust_dummy_get_size lttng_ust_dummy_record
               lttng_ust_dummy_get_value s in
    let s := lttng_ust_context_set_event_notifier_group_provider
               (provider_name provider)
               lttng_ust_dummy_get_size lttng_ust_dummy_record
               lttng_ust_dummy_get_value s in
    let s := cds_hlist_del provider s in
    ust_unlock s.

(** *** The context field builder *)

(** [struct lttng_ust_ctx_field]: the field description and the callback
    triple bound to it. *)
Record lttng_ust_ctx_field : Type := {
  event_field : lttng_ust_event_field;
  get_size : get_size_fn;
  record : record_fn;
  get_value : get_value_fn
}.

(** The four objects the builder allocates, in acquisition order. *)
Inductive alloc_object : Type :=
  | obj_ctx_field        (* zmalloc(sizeof(struct lttng_ust_ctx_field)) *)
  | obj_event_field      (* zmalloc(sizeof(struct lttng_ust_event_field)) *)
  | obj_field_name       (* strdup(name) *)
  | obj_field_type.      (* zmalloc(sizeof(struct lttng_ust_type_common)) *)

#[global] Instance alloc_object_eq_dec : EqDecision alloc_object.
Proof. solve_decision. Defined.

Inductive mem_call : Type :=
  | mem_alloc (o : alloc_object) (addr : Z)
  | mem_alloc_failed (o : alloc_object)
  | mem_free (o : alloc_object) (addr : Z).

#[global] Instance mem_call_eq_dec : EqDecision mem_call.
Proof. solve_decision. Defined.

(** The allocator: the live blocks (most recent first), the next fresh
    address, the outcomes of the coming allocation requests ([false]: the
    request returns NULL; none left: the request succeeds), and the trace of
    allocator calls. *)
Record heap : Type := {
  live : list Z;
  next_addr : Z;
  outcomes : list bool;
  mem_calls : list mem_call
}.

Definition alloc (o : alloc_object) (h : heap) : option Z * heap :=
  match outcomes h with
  | false :: rest =>
      (None,
       {| live := live h; next_addr := next_addr h; outcomes := rest;
          mem_calls := mem_calls h ++ [mem_alloc_failed o] |})
  | _ =>
      (Some (next_addr h),
       {| live := next_addr h :: live h; next_addr := next_addr h + 1;
          outcomes := tail (outcomes h);
          mem_calls := mem_calls h ++ [mem_alloc o (next_addr h)] |})
  end.

Definition zmalloc (o : alloc_object) (h : heap) : option Z * heap := alloc o h.
Definition strdup (s : string) (h : heap) : option Z * heap := alloc obj_field_name h.

Fixpoint remove_first (a : Z) (l : list Z) : list Z :=
  match l with
  | [] => []
  | b :: rest => if Z.eqb a b then rest else b :: remove_first a rest
  end.

Definition free (o : alloc_object) (a : Z) (h : heap) : heap :=
  {| live := remove_first a (live h); next_addr := next_addr h;
     outcomes := outcomes h;
     mem_calls := mem_calls h ++ [mem_free o a] |}.

(** Modelled from the spec: [lttng_find_context] is defined outside the
    files modelled here; the spec has the builder fail when the array already
    contains a field named [name]. *)
Definition lttng_find_context (ctx : list lttng_ust_ctx_field) (fname : string)
  : bool :=
  existsb (fun f => bool_decide (name (event_field f) = Some fname)) ctx.

(** Modelled from the spec: [lttng_context_add_rcu], the append primitive,
    is defined outside the files modelled here.  The spec has it publish a new
    array with the new field placed last, or fail with an error of the
    array layer and publish nothing; which of the two happens is an input
    of the model ([append_ret], zero on success). *)
Definition lttng_context_add_rcu (append_ret : Z)
    (ctx : option (list lttng_ust_ctx_field)) (f : lttng_ust_ctx_field)
  : Z * option (list lttng_ust_ctx_field) :=
  if append_ret =? 0 then (0, Some (default [] ctx ++ [f])%list)
  else (append_ret, ctx).

(** What a call returns: the [int] result, the array [*ctx] afterwards and
    the allocator afterwards. *)
Record add_result : Type := {
  add_ret : Z;
  add_ctx : option (list lttng_ust_ctx_field);
  add_heap : heap
}.

Definition lttng_ust_add_app_context_to_ctx_rcu (append_ret : Z)
    (ht : gmap Z (list lttng_ust_context_provider))
    (fname : string) (ctx : option (list lttng_ust_ctx_field)) (h : heap)
  : add_result :=
  if match ctx with
     | Some fields => lttng_find_context fields fname
     | None => false
     end
  then {| add_ret := - EEXIST; add_ctx := ctx; add_heap := h |}
  else
    match zmalloc obj_ctx_field h with
    | (None, h) => {| add_ret := - ENOMEM; add_ctx := ctx; add_heap := h |}
    | (Some new_field, h) =>
    match zmalloc obj_event_field h with
    | (None, h) =>
        {| add_ret := - ENOMEM; add_ctx := ctx;
           add_heap := free obj_ctx_field new_field h |}
    | (Some new_event_field, h) =>
    match strdup fname h with
    | (None, h) =>
        {| add_ret := - ENOMEM; add_ctx := ctx;
           add_heap := free obj_ctx_field new_field
                         (free obj_event_field new_event_field h) |}
    | (Some new_name, h) =>
    match zmalloc obj_field_type h with
    | (None, h) =>
        {| add_ret := - ENOMEM; add_ctx := ctx;
           add_heap := free obj_ctx_field new_field
                         (free obj_event_field new_event_field
                            (free obj_field_name new_name h)) |}
    | (Some new_type, h) =>
        let descr := {| name := Some fname; type := lttng_ust_type_dynamic;
                        nowrite := 0 |} in
        let field :=
          match lookup_provider_by_name ht fname with
          | Some provider =>
              {| event_field := descr;
                 get_size := provider_get_size provider;
                 record := provider_record provider;
                 get_value := provider_get_value provider |}
          | None =>
              {| event_field := descr;
                 get_size := lttng_ust_dummy_get_size;
                 record := lttng_ust_dummy_record;
                 get_value := lttng_ust_dummy_get_value |}
          end in
        let '(ret, ctx') := lttng_context_add_rcu append_ret ctx field in
        if negb (ret =? 0)
        then {| add_ret := ret; add_ctx := ctx';
                add_heap := free obj_ctx_field new_field
                              (free obj_event_field new_event_field
                                 (free obj_field_name new_name
                                    (free obj_field_type new_type h))) |}
        else {| add_ret := 0; add_ctx := ctx'; add_heap := h |}
    end end end end.

End Registry.

Arguments lookup_provider_by_name jhash ht name : simpl never.

(** *** Vocabulary of the statements *)

(** The substring of a name that precedes its first ':' (the whole name
    when it has none): the key [lookup_provider_by_name] works on. *)
Definition name_key (n : string) : string :=
  key_bytes n (match strchr n ":" with
               | Some e => e
               | None => strlen n
               end).

(** The three components of the state the statements speak of: the hash
    table and the two slot sets are as before. *)
Definition same_registry (s s' : ust_state) : Prop :=
  context_provider_ht s' = context_provider_ht s
  /\ session_providers s' = session_providers s
  /\ event_notifier_group_providers s' = event_notifier_group_providers s.

(** [s] begins with [p]. *)
Definition starts_with (p s : string) : Prop := exists rest, s = (p ++ rest)%string.

(** [c] occurs in [s]. *)
Definition contains_char (c : ascii) (s : string) : Prop :=
  exists before after, s = (before ++ String c after)%string.

(** A name [register] accepts. *)
Definition well_formed_name (n : string) : Prop :=
  starts_with "$app." n /\ ~ contains_char ":" n.

(** A string without NUL characters: what a C string holds before its
    terminator. *)
Fixpoint nul_free (s : string) : Prop :=
  match s with
  | EmptyString => True
  | String c rest => c <> NUL /\ nul_free rest
  end.

(** A family of well-formed provider names, each a prefix of the next:
    "$app.", "$app.a", "$app.aa", ... *)
Fixpoint a_string (i : nat) : string :=
  match i with
  | O => EmptyString
  | S i' => String "a" (a_string i')
  end.

Definition app_name (i : nat) : string := ("$app." ++ a_string i)%string.

(** A provider at address [addr] named [n], with callbacks that report the
    address (so that two providers are told apart by what they return). *)
Definition sample_provider (addr : Z) (n : string) : lttng_ust_context_provider :=
  {| provider_addr := addr;
     provider_name := n;
     provider_get_size := fun _ => addr;
     provider_record := fun _ out => addr :: out;
     provider_get_value := fun _ => (LTTNG_UST_DYNAMIC_TYPE_S64, addr) |}.

(** The blocks a trace of allocator calls acquires, and the blocks it
    releases, each in the order of the calls. *)
Definition allocs_of (l : list mem_call) : list (alloc_object * Z) :=
  omap (fun c => match c with mem_alloc o a => Some (o, a) | _ => None end) l.

Definition frees_of (l : list mem_call) : list (alloc_object * Z) :=
  omap (fun c => match c with mem_free o a => Some (o, a) | _ => None end) l.

(** The builder's duplicate test on [*ctx]. *)
Definition already_present (ctx : option (list lttng_ust_ctx_field))
    (fname : string) : bool :=
  match ctx with
  | Some fields => lttng_find_context fields fname
  | None => false
  end.

(** The callback triple of a context field. *)
Definition field_triple (f : lttng_ust_ctx_field) : callback_triple :=
  {| cb_get_size := get_size f; cb_record := record f; cb_get_value := get_value f |}.

(** What registration maintains: every provider on a chain has a
    well-formed name and sits in the bucket its name hashes to. *)
Definition registry_ok (jhash : string -> Z -> Z)
    (ht : gmap Z (list lttng_ust_context_provider)) : Prop :=
  forall (b : Z) (p : lttng_ust_context_provider),
    p ∈ hlist_head ht b ->
    b = bucket_of jhash (provider_name p) /\ well_formed_name (provider_name p).

(** The registry states the two entry points produce from the initial
    state: any registration attempt, and any unregistration of a provider
    that is linked on a chain (what [cds_hlist_del] requires). *)
Inductive reachable (jhash : string -> Z -> Z) : ust_state -> Prop :=
  | reach_init : reachable jhash ust_init
  | reach_register (lock_ret : Z) (p : lttng_ust_context_provider) (s : ust_state) :
      reachable jhash s ->
      reachable jhash (snd (lttng_ust_context_provider_register jhash lock_ret p s))
  | reach_unregister (lock_ret : Z) (p : lttng_ust_context_provider)
      (s : ust_state) (b : Z) :
      reachable jhash s ->
      p ∈ hlist_head (context_provider_ht s) b ->
      reachable jhash (lttng_ust_context_provider_unregister lock_ret p s).

(** No two providers of one chain bear the same name. *)
Definition chain_names_distinct
    (ht : gmap Z (list lttng_ust_context_provider)) : Prop :=
  forall b : Z, NoDup (provider_name <$> hlist_head ht b).

(** The calls a run added to the trace. *)
Definition new_calls (s s' : ust_state) : list ust_call :=
  drop (length (calls s)) (calls s').

Definition is_lock_call (c : ust_call) : bool :=
  match c with call_ust_lock _ => true | _ => false end.

Definition is_unlock_call (c : ust_call) : bool :=
  match c with call_ust_unlock => true | _ => false end.

(** The lock discipline of a run from [s] to [s']: the run only adds
    calls; it requests the lock at most once and releases it as often as it
    requested it, as its last call; and it changes the hash table or a slot
    set only if it obtained the lock. *)
Definition lock_discipline (s s' : ust_state) : Prop :=
  calls s' = (calls s ++ new_calls s s')%list
  /\ length (List.filter is_lock_call (new_calls s s'))
     = length (List.filter is_unlock_call (new_calls s s'))
  /\ (length (List.filter is_lock_call (new_calls s s')) <= 1)%nat
  /\ (List.filter is_lock_call (new_calls s s') <> [] ->
      last (new_calls s s') = Some call_ust_unlock)
  /\ (~ same_registry s s' -> call_ust_lock 0 ∈ new_calls s s').

(** *** Concrete inputs on which the model is run *)

(** An instance of the hash parameter, used only to evaluate the model on
    the concrete inputs below; it is not the function of [jhash.h]. *)
Definition sample_hash (key : string) (seed : Z) : Z :=
  Z.of_nat (String.length key) * 31 + seed.

Definition myprov : lttng_ust_context_provider := sample_provider 7 "$app.myprov".

(** The registry after [register("$app.myprov")] on the initial state. *)
Definition registry_with_myprov : ust_state :=
  snd (lttng_ust_context_provider_register sample_hash 0 myprov ust_init).

(** An allocator with nothing live on which every request succeeds, and one
    on which the third request (the name copy) fails. *)
Definition heap_ok : heap :=
  {| live := []; next_addr := 100; outcomes := []; mem_calls := [] |}.


(** A context array holding one application field named "$app.dup". *)
Definition ctx_with_dup : list lttng_ust_ctx_field :=
  [ {| event_field := {| name := Some "$app.dup"; type := lttng_ust_type_dynamic;
                         nowrite := 0 |};
       get_size := lttng_ust_dummy_get_size;
       record := lttng_ust_dummy_record;
       get_value := lttng_ust_dummy_get_value |} ].

(** * Theorems *)

(** ** Part 1: the dynamic type table *)

(** Case analysis on an integer known to lie in [0, 12): the twelve table
    indices, one goal each. *)
Ltac table_index k :=
  let Hk := fresh "Hk" in
  assert (Hk : k = 0 \/ k = 1 \/ k = 2 \/ k = 3 \/ k = 4 \/ k = 5 \/ k = 6
               \/ k = 7 \/ k = 8 \/ k = 9 \/ k = 10 \/ k = 11)
    by (unfold _NR_LTTNG_UST_DYNAMIC_TYPES in *; lia);
  repeat (destruct Hk as [Hk|Hk]; [subst k|]); [ .. | subst k].

(** Scenario 5 of the spec, and the position of a descriptor. *)
Example dynamic_type_field_3 :
  name <$> lttng_ust_dynamic_type_field 3 = Some (Some "int32").
Proof. reflexivity. Qed.

Example dynamic_type_field_999 : lttng_ust_dynamic_type_field 999 = None.
Proof. reflexivity. Qed.

Example field_ordinal_example :
  (lttng_ust_dynamic_type_field 7 ≫= field_ordinal) = Some 7.
Proof. vm_compute. reflexivity. Qed.

Lemma dt_var_fields_length : length dt_var_fields = 12%nat.
Proof. reflexivity. Qed.

Lemma dt_enum_length : length dt_enum = 12%nat.
Proof. reflexivity. Qed.

Lemma dynamic_type_field_out_of_range (k : Z) :
  k < 0 \/ k >= _NR_LTTNG_UST_DYNAMIC_TYPES ->
  lttng_ust_dynamic_type_field k = None.
Proof.
  intros Hk. unfold lttng_ust_dynamic_type_field.
  destruct (k >=? _NR_LTTNG_UST_DYNAMIC_TYPES) eqn:Hge; [reflexivity|].
  destruct (k <? 0) eqn:Hlt; [reflexivity|].
  rewrite Z.geb_leb in Hge. apply Z.leb_gt in Hge. apply Z.ltb_ge in Hlt. lia.
Qed.

Lemma dynamic_type_field_in_range (k : Z) :
  0 <= k < _NR_LTTNG_UST_DYNAMIC_TYPES ->
  exists f, lttng_ust_dynamic_type_field k = Some f
            /\ dt_var_fields !! Z.to_nat k = Some (Some f)
            /\ field_ordinal f = Some k.
Proof.
  intros Hk. table_index k; eexists; (split; [|split]); vm_compute; reflexivity.
Qed.

(** The table holds twelve pairwise different descriptors: a descriptor
    determines its index. *)
Lemma dynamic_type_field_injective (k1 k2 : Z) (f : lttng_ust_event_field) :
  lttng_ust_dynamic_type_field k1 = Some f ->
  lttng_ust_dynamic_type_field k2 = Some f ->
  k1 = k2.
Proof.
  intros H1 H2.
  assert (R : forall k, lttng_ust_dynamic_type_field k = Some f ->
                        field_ordinal f = Some k).
  { intros k Hk.
    destruct (decide (0 <= k < _NR_LTTNG_UST_DYNAMIC_TYPES)) as [Hin|Hout].
    - destruct (dynamic_type_field_in_range k Hin) as (g & Hg & _ & Ho).
      congruence.
    - rewrite dynamic_type_field_out_of_range in Hk by lia. discriminate. }
  apply R in H1. apply R in H2. congruence.
Qed.

(** C1: for every integer k with 0 <= k < 12, lttng_ust_dynamic_type_field
    returns the descriptor stored at index k of the table, and the position
    of that descriptor in the table is k; for every k < 0 or k >= 12 it
    returns NULL; two calls on the same k give the same result. *)
Theorem dynamic_type_field_total_bijective (k : Z) :
  _NR_LTTNG_UST_DYNAMIC_TYPES = 12
  /\ (0 <= k < 12 ->
        exists f, lttng_ust_dynamic_type_field k = Some f
                  /\ dt_var_fields !! Z.to_nat k = Some (Some f)
                  /\ field_ordinal f = Some k)
  /\ (k < 0 \/ k >= 12 -> lttng_ust_dynamic_type_field k = None)
  /\ (forall r1 r2,
        r1 = lttng_ust_dynamic_type_field k ->
        r2 = lttng_ust_dynamic_type_field k -> r1 = r2).
Proof.
  split; [reflexivity|]. split; [|split].
  - intros Hk. apply dynamic_type_field_in_range. exact Hk.
  - intros Hk. apply dynamic_type_field_out_of_range. exact Hk.
  - intros r1 r2 -> ->. reflexivity.
Qed.

(** Every slot of [dt_enum] is filled, by the entry whose two ends are the
    slot's index. *)
Lemma dt_enum_slot (i : nat) :
  (i < 12)%nat ->
  exists e, dt_enum !! i = Some (Some e)
            /\ value (start e) = Z.of_nat i /\ value (end_ e) = Z.of_nat i.
Proof.
  intros Hi.
  do 12 (destruct i as [|i]; [eexists; vm_compute; repeat split|]).
  lia.
Qed.

Lemma dt_enum_entry_at (i : nat) (e : lttng_ust_enum_entry) :
  dt_enum !! i = Some (Some e) ->
  value (start e) = Z.of_nat i /\ value (end_ e) = Z.of_nat i.
Proof.
  intros He.
  assert (Hi : (i < 12)%nat).
  { apply lookup_lt_Some in He. rewrite dt_enum_length in He. exact He. }
  destruct (dt_enum_slot i Hi) as (e' & He' & Hs & Hend).
  rewrite He in He'. injection He' as <-. split; assumption.
Qed.

(** C10: the tag descriptor is an enumeration over [dt_enum]; the table has
    twelve slots, one per dynamic kind; the entry for kind k (0 <= k < 12,
    the slot designated by the kind's enumerator) is a range whose start
    and end are both k; and no other entry carries the value k. *)
Theorem dt_enum_entries_are_kind_ordinals :
  type lttng_ust_dynamic_type_tag_field
    = lttng_ust_type_enum dt_enum_desc
        (lttng_ust_type_integer_define c_char BYTE_ORDER 10)
  /\ entries dt_enum_desc = dt_enum
  /\ nr_entries dt_enum_desc = 12
  /\ length dt_enum = length all_dynamic_types
  /\ (forall k : Z, 0 <= k < 12 ->
        exists e, dt_enum !! Z.to_nat k = Some (Some e)
                  /\ value (start e) = k /\ value (end_ e) = k)
  /\ (forall kind : lttng_ust_dynamic_type,
        exists e, dt_enum !! Z.to_nat (ordinal kind) = Some (Some e)
                  /\ value (start e) = ordinal kind
                  /\ value (end_ e) = ordinal kind)
  /\ (forall (i : nat) (e : lttng_ust_enum_entry) (k : Z),
        dt_enum !! i = Some (Some e) ->
        value (start e) = k \/ value (end_ e) = k -> Z.of_nat i = k).
Proof.
  repeat split; try reflexivity.
  - intros k Hk.
    destruct (dt_enum_slot (Z.to_nat k)) as (e & He & Hs & Hend); [lia|].
    exists e. rewrite Hs, Hend. repeat split; [exact He | lia | lia].
  - intros kind. destruct kind; eexists; vm_compute; repeat split.
  - intros i e k He Hk.
    destruct (dt_enum_entry_at i e He) as [Hs Hend].
    destruct Hk; congruence.
Qed.

(** ** Part 2: the provider registry *)

(** *** Facts about the C string functions *)

Lemma strchr_Some_contains (s : string) (c : ascii) (i : nat) :
  strchr s c = Some i -> contains_char c s.
Proof.
  revert i. induction s as [|a s IH]; intros i H; simpl in H; [discriminate|].
  destruct (Ascii.eqb a c) eqn:E.
  - apply Ascii.eqb_eq in E. subst a. exists EmptyString, s. reflexivity.
  - destruct (strchr s c) as [j|]; [|discriminate].
    destruct (IH j eq_refl) as (b & a' & ->).
    exists (String a b), a'. reflexivity.
Qed.

Lemma strchr_None_not_contains (s : string) (c : ascii) :
  strchr s c = None -> ~ contains_char c s.
Proof.
  induction s as [|a s IH]; intros H (b & a' & E).
  - destruct b; discriminate.
  - simpl in H. destruct (Ascii.eqb a c) eqn:Eac; [discriminate|].
    destruct (strchr s c) eqn:Es; [discriminate|].
    destruct b as [|b0 b]; simpl in E; injection E as -> E.
    + rewrite Ascii.eqb_refl in Eac. discriminate.
    + apply IH; [reflexivity|]. exists b, a'. exact E.
Qed.

Lemma contains_char_strchr (s : string) (c : ascii) :
  contains_char c s <-> is_Some (strchr s c).
Proof.
  split.
  - intros Hc. destruct (strchr s c) eqn:E; [eauto|].
    exfalso. eapply strchr_None_not_contains; eassumption.
  - intros [i Hi]. eapply strchr_Some_contains; eassumption.
Qed.

Lemma append_cons (c : ascii) (p s : string) :
  (String c p ++ s)%string = String c (p ++ s)%string.
Proof. reflexivity. Qed.

Lemma append_nil (s : string) : (EmptyString ++ s)%string = s.
Proof. reflexivity. Qed.

Lemma char_diff_zero (c1 c2 : ascii) :
  Z.of_nat (nat_of_ascii c1) - Z.of_nat (nat_of_ascii c2) = 0 -> c1 = c2.
Proof.
  intros H. assert (E : nat_of_ascii c1 = nat_of_ascii c2) by lia.
  rewrite <- (ascii_nat_embedding c1), <- (ascii_nat_embedding c2), E.
  reflexivity.
Qed.

Lemma strncmp_cons_same (c : ascii) (s1 s2 : string) (n : nat) :
  c <> NUL ->
  strncmp (String c s1) (String c s2) (S n) = strncmp s1 s2 n.
Proof.
  intros Hc. cbn [strncmp char_at str_tail].
  rewrite Ascii.eqb_refl. cbn [negb].
  destruct (Ascii.eqb c NUL) eqn:E; [apply Ascii.eqb_eq in E; contradiction|].
  reflexivity.
Qed.

Lemma strncmp_refl (s : string) (n : nat) : strncmp s s n = 0.
Proof.
  revert s. induction n as [|n IH]; intros s; [reflexivity|].
  cbn [strncmp]. rewrite Ascii.eqb_refl. cbn [negb].
  destruct (Ascii.eqb (char_at s) NUL); [reflexivity|]. apply IH.
Qed.

(** Comparing over a common NUL-free prefix and [n] characters more is
    comparing the remainders over [n] characters. *)
Lemma strncmp_app (p s1 s2 : string) (n : nat) :
  nul_free p ->
  strncmp (p ++ s1) (p ++ s2) (strlen p + n) = strncmp s1 s2 n.
Proof.
  induction p as [|c p IH]; intros Hp; [reflexivity|].
  destruct Hp as [Hc Hp]. unfold strlen in *.
  rewrite !append_cons. cbn [String.length Nat.add].
  rewrite strncmp_cons_same by exact Hc. apply IH. exact Hp.
Qed.

(** A NUL-free [p] compares equal to [s] over its own length exactly when
    [s] begins with [p]. *)
Lemma strncmp_prefix (p s : string) :
  nul_free p ->
  strncmp p s (strlen p) = 0 <-> starts_with p s.
Proof.
  revert s. induction p as [|c p IH]; intros s Hp.
  - split; [intros _; exists s; reflexivity | reflexivity].
  - destruct Hp as [Hc Hp]. unfold strlen in *. simpl String.length.
    destruct s as [|d s].
    + split.
      * cbn [strncmp char_at]. intros H.
        destruct (Ascii.eqb c NUL) eqn:E.
        { apply Ascii.eqb_eq in E. contradiction. }
        cbn [negb] in H. apply char_diff_zero in H. contradiction.
      * intros [rest Hrest]. discriminate.
    + destruct (Ascii.eqb c d) eqn:E.
      * apply Ascii.eqb_eq in E. subst d.
        rewrite strncmp_cons_same by exact Hc. rewrite IH by exact Hp.
        split; intros [rest Hrest]; exists rest.
        { rewrite append_cons, Hrest. reflexivity. }
        { rewrite append_cons in Hrest. injection Hrest as ->. reflexivity. }
      * split.
        { cbn [strncmp char_at]. rewrite E. cbn [negb]. intros H.
          apply char_diff_zero in H. subst d.
          rewrite Ascii.eqb_refl in E. discriminate. }
        { intros [rest Hrest]. rewrite append_cons in Hrest.
          injection Hrest as -> _.
          rewrite Ascii.eqb_refl in E. discriminate. }
Qed.

(** The prefix test of [register]: [strncmp("$app.", name, 5)] is zero
    exactly on the names that begin with ["$app."]. *)
Lemma app_prefix_test (s : string) :
  strncmp "$app." s (strlen "$app.") = 0 <-> starts_with "$app." s.
Proof.
  apply strncmp_prefix. cbn. repeat split; discriminate.
Qed.

Lemma key_bytes_all (s : string) : key_bytes s (strlen s) = s.
Proof.
  induction s as [|c s IH]; [reflexivity|].
  unfold strlen in *. simpl. rewrite IH. reflexivity.
Qed.

Lemma key_bytes_app (p rest : string) : key_bytes (p ++ rest) (strlen p) = p.
Proof.
  induction p as [|c p IH]; [destruct rest; reflexivity|].
  unfold strlen in *. rewrite append_cons. simpl. rewrite IH. reflexivity.
Qed.

Lemma strchr_app_first (p rest : string) (c : ascii) :
  strchr p c = None ->
  strchr (p ++ String c rest) c = Some (strlen p).
Proof.
  induction p as [|a p IH]; intros H.
  - rewrite append_nil. simpl. rewrite Ascii.eqb_refl. reflexivity.
  - rewrite append_cons. simpl in H |- *.
    destruct (Ascii.eqb a c); [discriminate|].
    destruct (strchr p c) eqn:E; [discriminate|].
    rewrite IH by reflexivity. reflexivity.
Qed.

(** *** Registration *)

Section RegistryFacts.

Variable jhash : string -> Z -> Z.

Lemma prefix_test_false (n : string) :
  ~ starts_with "$app." n ->
  (strncmp "$app." n (strlen "$app.") =? 0) = false.
Proof.
  intros H. apply Z.eqb_neq. intros E. apply H, app_prefix_test, E.
Qed.

Lemma prefix_test_true (n : string) :
  starts_with "$app." n ->
  (strncmp "$app." n (strlen "$app.") =? 0) = true.
Proof. intros H. apply Z.eqb_eq, app_prefix_test, H. Qed.

Lemma strchr_well_formed (n : string) :
  ~ contains_char ":" n -> strchr n ":" = None.
Proof.
  intros H. destruct (strchr n ":") eqn:E; [|reflexivity].
  exfalso. apply H. eapply strchr_Some_contains. exact E.
Qed.

(** C2: a provider whose name does not begin with "$app." or contains ':'
    is refused with -EINVAL; the hash table and the two default-binding
    slot sets are as before, and the lock is not even requested (the only
    call made is the TLS fixup). *)
Theorem register_rejects_invalid_name
    (lock_ret : Z) (p : lttng_ust_context_provider) (s : ust_state) :
  ~ starts_with "$app." (provider_name p)
  \/ contains_char ":" (provider_name p) ->
  fst (lttng_ust_context_provider_register jhash lock_ret p s) = - EINVAL
  /\ same_registry s (snd (lttng_ust_context_provider_register jhash lock_ret p s))
  /\ calls (snd (lttng_ust_context_provider_register jhash lock_ret p s))
     = (calls s ++ [call_fixup_tls])%list.
Proof.
  intros Hbad. unfold lttng_ust_context_provider_register.
  destruct (strncmp "$app." (provider_name p) (strlen "$app.") =? 0) eqn:Epre;
    cbn [negb].
  - destruct Hbad as [Hno|Hcolon].
    + exfalso. apply Hno, app_prefix_test. apply Z.eqb_eq. exact Epre.
    + apply contains_char_strchr in Hcolon. destruct Hcolon as [i Hi].
      rewrite Hi. cbn. repeat split.
  - cbn. repeat split.
Qed.

(** [register] has three results. *)
Lemma register_result (lock_ret : Z) (p : lttng_ust_context_provider)
    (s : ust_state) :
  fst (lttng_ust_context_provider_register jhash lock_ret p s) = - EINVAL
  \/ fst (lttng_ust_context_provider_register jhash lock_ret p s) = - EBUSY
  \/ fst (lttng_ust_context_provider_register jhash lock_ret p s) = 0.
Proof.
  unfold lttng_ust_context_provider_register.
  destruct (negb _); [left; reflexivity|].
  destruct (strchr _ _); [left; reflexivity|].
  cbn [ust_lock]. destruct (negb _); [right; left; reflexivity|].
  destruct (lookup_provider_by_name jhash _ _); [right; left|right; right]; reflexivity.
Qed.

(** On a well-formed name the result is -EBUSY exactly when [ust_lock]
    fails or [lookup_provider_by_name] finds a provider. *)
Lemma register_busy_iff (lock_ret : Z) (p : lttng_ust_context_provider)
    (s : ust_state) :
  well_formed_name (provider_name p) ->
  fst (lttng_ust_context_provider_register jhash lock_ret p s) = - EBUSY
  <-> lock_ret <> 0
      \/ is_Some (lookup_provider_by_name jhash (context_provider_ht s) (provider_name p)).
Proof.
  intros [Hpre Hcol]. unfold lttng_ust_context_provider_register.
  rewrite prefix_test_true by exact Hpre. cbn [negb].
  rewrite strchr_well_formed by exact Hcol. cbn [ust_lock].
  destruct (lock_ret =? 0) eqn:El; cbn [negb].
  - apply Z.eqb_eq in El. subst lock_ret.
    change (context_provider_ht (log_call (call_ust_lock 0) (lttng_ust_fixup_tls s)))
      with (context_provider_ht s).
    destruct (lookup_provider_by_name jhash (context_provider_ht s) (provider_name p)) eqn:E;
      cbn [fst].
    + split; [intros _; right; eauto | reflexivity].
    + split; [discriminate|]. intros [H|[q Hq]]; [contradiction|discriminate].
  - apply Z.eqb_neq in El. cbn [fst]. split; [intros _; left; exact El|reflexivity].
Qed.

(** A registration that ends in -EBUSY leaves the registry as it was. *)
Lemma register_busy_frame (lock_ret : Z) (p : lttng_ust_context_provider)
    (s : ust_state) :
  fst (lttng_ust_context_provider_register jhash lock_ret p s) = - EBUSY ->
  same_registry s (snd (lttng_ust_context_provider_register jhash lock_ret p s)).
Proof.
  unfold lttng_ust_context_provider_register.
  destruct (negb _); [discriminate|].
  destruct (strchr _ _); [discriminate|].
  cbn [ust_lock]. destruct (negb _); [intros _; repeat split|].
  destruct (lookup_provider_by_name jhash _ _); [intros _; repeat split|discriminate].
Qed.

(** What a successful registration does: the provider becomes the head of
    the bucket its whole name hashes to, and both slot sets bind the name to
    the provider's callbacks. *)
Lemma register_success (lock_ret : Z) (p : lttng_ust_context_provider)
    (s : ust_state) :
  fst (lttng_ust_context_provider_register jhash lock_ret p s) = 0 ->
  well_formed_name (provider_name p)
  /\ lock_ret = 0
  /\ lookup_provider_by_name jhash (context_provider_ht s) (provider_name p) = None
  /\ context_provider_ht (snd (lttng_ust_context_provider_register jhash lock_ret p s))
     = <[bucket_of jhash (provider_name p) :=
           p :: hlist_head (context_provider_ht s)
                  (bucket_of jhash (provider_name p))]>
         (context_provider_ht s)
  /\ session_providers (snd (lttng_ust_context_provider_register jhash lock_ret p s))
     = <[provider_name p := provider_triple p]> (session_providers s)
  /\ event_notifier_group_providers (snd (lttng_ust_context_provider_register jhash lock_ret p s))
     = <[provider_name p := provider_triple p]>
         (event_notifier_group_providers s).
Proof.
  unfold lttng_ust_context_provider_register.
  destruct (strncmp "$app." (provider_name p) (strlen "$app.") =? 0) eqn:Epre;
    cbn [negb]; [|discriminate].
  destruct (strchr (provider_name p) ":") eqn:Ecol; [discriminate|].
  cbn [ust_lock].
  destruct (lock_ret =? 0) eqn:El; cbn [negb]; [|discriminate].
  change (context_provider_ht (log_call (call_ust_lock lock_ret) (lttng_ust_fixup_tls s)))
    with (context_provider_ht s).
  destruct (lookup_provider_by_name jhash (context_provider_ht s) (provider_name p)) eqn:E;
    [discriminate|].
  intros _. split; [|split; [|split; [|split; [|split]]]].
  - split.
    + apply app_prefix_test. apply Z.eqb_eq. exact Epre.
    + apply strchr_None_not_contains. exact Ecol.
  - apply Z.eqb_eq. exact El.
  - reflexivity.
  - cbn. unfold bucket_of. rewrite key_bytes_all. reflexivity.
  - reflexivity.
  - reflexivity.
Qed.

End RegistryFacts.

(** *** Unregistration *)

Lemma hlist_head_fmap (f : list lttng_ust_context_provider -> list lttng_ust_context_provider)
    (ht : gmap Z (list lttng_ust_context_provider)) (i : Z) :
  f [] = [] -> hlist_head (f <$> ht) i = f (hlist_head ht i).
Proof.
  intros Hf. unfold hlist_head. rewrite lookup_fmap.
  destruct (ht !! i); cbn; [reflexivity | symmetry; exact Hf].
Qed.

(** C8: when [ust_lock] fails, unregister changes neither the hash table
    nor the slot sets, asks for the lock once and returns; when the lock is
    obtained, the provider being linked on a chain (what [cds_hlist_del]
    requires), it first resets the session slot and the
    event-notifier-group slot of the provider's name to the no-op stand-ins
    and then unlinks the provider from its chain: the provider is gone
    from its bucket and every other chain entry stays where it was. *)
Theorem unregister_best_effort
    (lock_ret : Z) (p : lttng_ust_context_provider) (s : ust_state) (b : Z) :
  (lock_ret = 0 -> p ∈ hlist_head (context_provider_ht s) b) ->
  (lock_ret <> 0 ->
     same_registry s (lttng_ust_context_provider_unregister lock_ret p s)
     /\ calls (lttng_ust_context_provider_unregister lock_ret p s)
        = (calls s ++ [call_fixup_tls; call_ust_lock lock_ret; call_ust_unlock])%list)
  /\ (lock_ret = 0 ->
        calls (lttng_ust_context_provider_unregister lock_ret p s)
        = (calls s ++ [call_fixup_tls; call_ust_lock 0;
                       call_set_session_provider (provider_name p);
                       call_set_event_notifier_group_provider (provider_name p);
                       call_hlist_del (provider_addr p);
                       call_ust_unlock])%list
        /\ session_providers (lttng_ust_context_provider_unregister lock_ret p s)
           = <[provider_name p := dummy_triple]> (session_providers s)
        /\ event_notifier_group_providers
             (lttng_ust_context_provider_unregister lock_ret p s)
           = <[provider_name p := dummy_triple]> (event_notifier_group_providers s)
        /\ (p ∉ hlist_head (context_provider_ht
                              (lttng_ust_context_provider_unregister lock_ret p s)) b)
        /\ (forall (i : Z) (q : lttng_ust_context_provider),
              q ∈ hlist_head (context_provider_ht
                                (lttng_ust_context_provider_unregister lock_ret p s)) i
              <-> q ∈ hlist_head (context_provider_ht s) i
                  /\ provider_addr q <> provider_addr p)).
Proof.
  intros Hlinked.
  assert (Hmem : lock_ret = 0 ->
            forall (i : Z) (q : lttng_ust_context_provider),
              q ∈ hlist_head (context_provider_ht
                                (lttng_ust_context_provider_unregister lock_ret p s)) i
              <-> q ∈ hlist_head (context_provider_ht s) i
                  /\ provider_addr q <> provider_addr p).
  { intros -> i q. unfold lttng_ust_context_provider_unregister.
    cbn [ust_lock Z.eqb negb ust_unlock log_call cds_hlist_del context_provider_ht
           lttng_ust_context_set_session_provider
           lttng_ust_context_set_event_notifier_group_provider
           lttng_ust_fixup_tls].
    rewrite hlist_head_fmap by reflexivity.
    rewrite list_elem_of_filter. tauto. }
  split.
  - intros Hl. unfold lttng_ust_context_provider_unregister. cbn [ust_lock].
    apply Z.eqb_neq in Hl. rewrite Hl. cbn [negb]. split.
    + repeat split.
    + cbn. rewrite <- !app_assoc. reflexivity.
  - intros Hz. split; [|split; [|split; [|split]]].
    + subst lock_ret. unfold lttng_ust_context_provider_unregister.
      cbn. rewrite <- !app_assoc. reflexivity.
    + subst lock_ret. reflexivity.
    + subst lock_ret. reflexivity.
    + intros Hin. apply (Hmem Hz) in Hin. destruct Hin as [_ Hne].
      apply Hne. reflexivity.
    + apply Hmem. exact Hz.
Qed.

(** *** Lookup *)

Lemma strncmp_key_bytes (s t : string) (n : nat) :
  strncmp s (key_bytes t n) n = strncmp s t n.
Proof.
  revert s t. induction n as [|n IH]; intros s t; [reflexivity|].
  destruct t as [|c t]; [reflexivity|].
  cbn [key_bytes strncmp char_at str_tail]. rewrite IH. reflexivity.
Qed.

Lemma key_bytes_before_char (s : string) (c : ascii) (e : nat) :
  strchr s c = Some e ->
  strchr (key_bytes s e) c = None /\ strlen (key_bytes s e) = e.
Proof.
  revert e. induction s as [|a s IH]; intros e H; [discriminate|].
  cbn [strchr] in H. destruct (Ascii.eqb a c) eqn:Eac.
  - injection H as <-. split; reflexivity.
  - destruct (strchr s c) as [e'|] eqn:Es; [|discriminate].
    injection H as <-. destruct (IH e' eq_refl) as [IH1 IH2].
    cbn [key_bytes strchr]. rewrite Eac, IH1. unfold strlen in *.
    cbn [String.length]. rewrite IH2. split; reflexivity.
Qed.

Lemma name_key_no_separator (n : string) : strchr (name_key n) ":" = None.
Proof.
  unfold name_key. destruct (strchr n ":") as [e|] eqn:E.
  - apply key_bytes_before_char. exact E.
  - rewrite key_bytes_all. exact E.
Qed.

Lemma name_key_qualified (prefix suffix : string) :
  strchr prefix ":" = None ->
  name_key (prefix ++ String ":" suffix) = prefix.
Proof.
  intros H. unfold name_key. rewrite strchr_app_first by exact H.
  apply key_bytes_app.
Qed.

Lemma name_key_bare (n : string) : strchr n ":" = None -> name_key n = n.
Proof. intros H. unfold name_key. rewrite H. apply key_bytes_all. Qed.

Lemma find_pointwise {A : Type} (f g : A -> bool) (l : list A) :
  (forall x, f x = g x) -> List.find f l = List.find g l.
Proof.
  intros H. induction l as [|x l IH]; [reflexivity|].
  cbn [List.find]. rewrite H, IH. reflexivity.
Qed.

Section LookupFacts.

Variable jhash : string -> Z -> Z.

(** What [lookup_provider_by_name] computes, in terms of the key: the first
    provider of the key's bucket whose name agrees with the key over the
    key's length. *)
Lemma lookup_by_key (ht : gmap Z (list lttng_ust_context_provider)) (n : string) :
  lookup_provider_by_name jhash ht n
  = List.find (fun p => strncmp (provider_name p) (name_key n)
                          (strlen (name_key n)) =? 0)
      (hlist_head ht (bucket_of jhash (name_key n))).
Proof.
  unfold lookup_provider_by_name, bucket_of, name_key.
  destruct (strchr n ":") as [e|] eqn:E.
  - destruct (key_bytes_before_char n ":" e E) as [_ Hlen]. rewrite Hlen.
    apply find_pointwise. intros p.
    rewrite strncmp_key_bytes. reflexivity.
  - rewrite key_bytes_all. reflexivity.
Qed.

(** Only the key matters: a name and its key are looked up alike. *)
Lemma lookup_key_only (ht : gmap Z (list lttng_ust_context_provider)) (n : string) :
  lookup_provider_by_name jhash ht n
  = lookup_provider_by_name jhash ht (name_key n).
Proof.
  rewrite (lookup_by_key ht n), (lookup_by_key ht (name_key n)).
  rewrite (name_key_bare (name_key n)) by apply name_key_no_separator.
  reflexivity.
Qed.

Lemma lookup_qualified (ht : gmap Z (list lttng_ust_context_provider))
    (prefix suffix : string) :
  strchr prefix ":" = None ->
  lookup_provider_by_name jhash ht (prefix ++ String ":" suffix)
  = lookup_provider_by_name jhash ht prefix.
Proof.
  intros H. rewrite lookup_key_only, name_key_qualified by exact H.
  reflexivity.
Qed.

(** A provider that is found sits in the key's bucket and agrees with the
    key over the key's length. *)
Lemma lookup_Some (ht : gmap Z (list lttng_ust_context_provider))
    (n : string) (p : lttng_ust_context_provider) :
  lookup_provider_by_name jhash ht n = Some p ->
  p ∈ hlist_head ht (bucket_of jhash (name_key n))
  /\ strncmp (provider_name p) (name_key n) (strlen (name_key n)) = 0.
Proof.
  rewrite lookup_by_key. intros H. apply List.find_some in H.
  destruct H as [Hin Hcmp]. split.
  - apply list_elem_of_In. exact Hin.
  - apply Z.eqb_eq. exact Hcmp.
Qed.

(** Nothing is found exactly when no provider of the key's bucket agrees
    with the key over the key's length. *)
Lemma lookup_None (ht : gmap Z (list lttng_ust_context_provider)) (n : string) :
  lookup_provider_by_name jhash ht n = None
  <-> forall p, p ∈ hlist_head ht (bucket_of jhash (name_key n)) ->
                strncmp (provider_name p) (name_key n) (strlen (name_key n)) <> 0.
Proof.
  rewrite lookup_by_key. split.
  - intros H p Hp. apply list_elem_of_In in Hp.
    apply Z.eqb_neq. exact (List.find_none _ _ H p Hp).
  - intros H.
    destruct (List.find _ _) as [p|] eqn:E; [|reflexivity].
    apply List.find_some in E. destruct E as [Hin Hcmp].
    exfalso. apply (H p); [apply list_elem_of_In; exact Hin|].
    apply Z.eqb_eq. exact Hcmp.
Qed.

(** Right after its registration a provider is the head of its chain, so a
    qualified name built on its name finds it. *)
Lemma lookup_after_register (p : lttng_ust_context_provider) (s : ust_state)
    (suffix : string) :
  fst (lttng_ust_context_provider_register jhash 0 p s) = 0 ->
  lookup_provider_by_name jhash
    (context_provider_ht (snd (lttng_ust_context_provider_register jhash 0 p s)))
    (provider_name p ++ String ":" suffix) = Some p.
Proof.
  intros Hok.
  destruct (register_success jhash 0 p s Hok) as ([_ Hcol] & _ & _ & Hht & _).
  rewrite Hht. rewrite lookup_qualified by (apply strchr_well_formed; exact Hcol).
  rewrite lookup_by_key.
  rewrite name_key_bare by (apply strchr_well_formed; exact Hcol).
  unfold hlist_head. rewrite lookup_insert_eq.
  cbn [default from_option id List.find].
  rewrite strncmp_refl. reflexivity.
Qed.

End LookupFacts.

(** *** What holds of the registry whatever the hash function *)

Section RegistryInvariant.

Variable jhash : string -> Z -> Z.

Lemma registry_ok_init : registry_ok jhash (context_provider_ht ust_init).
Proof.
  intros b p Hp. unfold hlist_head in Hp. cbn in Hp.
  rewrite lookup_empty in Hp. cbn in Hp.
  apply not_elem_of_nil in Hp. contradiction.
Qed.

Lemma registry_ok_register (lock_ret : Z) (p : lttng_ust_context_provider)
    (s : ust_state) :
  registry_ok jhash (context_provider_ht s) ->
  registry_ok jhash
    (context_provider_ht (snd (lttng_ust_context_provider_register jhash lock_ret p s))).
Proof.
  intros Hok.
  destruct (register_result jhash lock_ret p s) as [H|[H|H]].
  - unfold lttng_ust_context_provider_register in *.
    destruct (negb _); [exact Hok|].
    destruct (strchr _ _); [exact Hok|].
    cbn [ust_lock] in *. destruct (negb _); [exact Hok|].
    destruct (lookup_provider_by_name _ _ _); [exact Hok|discriminate H].
  - destruct (register_busy_frame jhash lock_ret p s H) as [Hht _].
    rewrite Hht. exact Hok.
  - destruct (register_success jhash lock_ret p s H) as (Hwf & _ & _ & Hht & _).
    rewrite Hht. intros b q Hq. unfold hlist_head in Hq.
    destruct (decide (b = bucket_of jhash (provider_name p))) as [->|Hne].
    + rewrite lookup_insert_eq in Hq. cbn in Hq.
      apply elem_of_cons in Hq. destruct Hq as [->|Hq].
      * split; [reflexivity|exact Hwf].
      * apply Hok. exact Hq.
    + rewrite lookup_insert_ne in Hq by congruence. apply Hok. exact Hq.
Qed.

Lemma registry_ok_unregister (lock_ret : Z) (p : lttng_ust_context_provider)
    (s : ust_state) :
  registry_ok jhash (context_provider_ht s) ->
  registry_ok jhash
    (context_provider_ht (lttng_ust_context_provider_unregister lock_ret p s)).
Proof.
  intros Hok. unfold lttng_ust_context_provider_unregister. cbn [ust_lock].
  destruct (negb _); [exact Hok|].
  intros b q Hq.
  cbn [ust_unlock log_call cds_hlist_del context_provider_ht
         lttng_ust_context_set_session_provider
         lttng_ust_context_set_event_notifier_group_provider
         lttng_ust_fixup_tls] in Hq.
  rewrite hlist_head_fmap in Hq by reflexivity.
  apply list_elem_of_filter in Hq. destruct Hq as [_ Hq].
  apply Hok. exact Hq.
Qed.

(** The spec's sentence as it stands: with a provider of the same name
    already registered, registration of a well-formed name ends in
    -EBUSY, whether or not the lock is obtained. *)
Lemma register_same_name_busy (lock_ret : Z) (p q : lttng_ust_context_provider)
    (s : ust_state) (b : Z) :
  registry_ok jhash (context_provider_ht s) ->
  well_formed_name (provider_name p) ->
  q ∈ hlist_head (context_provider_ht s) b ->
  provider_name q = provider_name p ->
  fst (lttng_ust_context_provider_register jhash lock_ret p s) = - EBUSY.
Proof.
  intros Hok Hwf Hq Hname.
  apply register_busy_iff; [exact Hwf|]. right.
  destruct (lookup_provider_by_name jhash (context_provider_ht s) (provider_name p))
    as [r|] eqn:E; [eauto|exfalso].
  destruct Hwf as [_ Hcol].
  rewrite lookup_None in E.
  rewrite name_key_bare in E by (apply strchr_well_formed; exact Hcol).
  apply (E q).
  - destruct (Hok b q Hq) as [-> _]. rewrite Hname in Hq. exact Hq.
  - rewrite Hname. apply strncmp_refl.
Qed.

Lemma find_unique {A : Type} (f : A -> bool) (l : list A) (x : A) :
  x ∈ l -> f x = true -> (forall y, y ∈ l -> f y = true -> y = x) ->
  List.find f l = Some x.
Proof.
  intros Hin Hx Huniq. induction l as [|y l IH].
  - apply not_elem_of_nil in Hin. contradiction.
  - cbn [List.find]. destruct (f y) eqn:Ey.
    + f_equal. apply Huniq; [apply list_elem_of_here|exact Ey].
    + apply IH.
      * apply elem_of_cons in Hin. destruct Hin as [->|Hin]; [congruence|exact Hin].
      * intros z Hz. apply Huniq. apply list_elem_of_further. exact Hz.
Qed.

(** A qualified name finds the provider registered under its bare part
    when no other provider of that bucket agrees with the bare part over
    its length. *)
Lemma lookup_unique_match (ht : gmap Z (list lttng_ust_context_provider))
    (p : lttng_ust_context_provider) (suffix : string) :
  strchr (provider_name p) ":" = None ->
  p ∈ hlist_head ht (bucket_of jhash (provider_name p)) ->
  (forall q, q ∈ hlist_head ht (bucket_of jhash (provider_name p)) ->
             strncmp (provider_name q) (provider_name p)
               (strlen (provider_name p)) = 0 -> q = p) ->
  lookup_provider_by_name jhash ht (provider_name p ++ String ":" suffix) = Some p.
Proof.
  intros Hcol Hin Huniq.
  rewrite lookup_qualified by exact Hcol.
  rewrite lookup_by_key, name_key_bare by exact Hcol.
  apply find_unique.
  - exact Hin.
  - rewrite strncmp_refl. reflexivity.
  - intros q Hq Hcmp. apply Huniq; [exact Hq|]. apply Z.eqb_eq. exact Hcmp.
Qed.

End RegistryInvariant.

(** *** Names that share a bucket *)

Lemma a_string_nul_free (i : nat) : nul_free (a_string i).
Proof. induction i as [|i IH]; cbn; [exact I|]. split; [discriminate|exact IH]. Qed.

Lemma app_name_nul_free (i : nat) : nul_free (app_name i).
Proof.
  unfold app_name. rewrite !append_cons, append_nil. cbn.
  repeat (split; [discriminate|]). apply a_string_nul_free.
Qed.

Lemma a_string_no_separator (i : nat) : strchr (a_string i) ":" = None.
Proof. induction i as [|i IH]; [reflexivity|]. cbn. rewrite IH. reflexivity. Qed.

Lemma app_name_no_separator (i : nat) : strchr (app_name i) ":" = None.
Proof.
  unfold app_name. rewrite !append_cons, append_nil. cbn.
  rewrite a_string_no_separator. reflexivity.
Qed.

Lemma app_name_well_formed (i : nat) : well_formed_name (app_name i).
Proof.
  split.
  - exists (a_string i). reflexivity.
  - apply strchr_None_not_contains, app_name_no_separator.
Qed.

Lemma append_empty_r (s : string) : (s ++ "")%string = s.
Proof. induction s as [|c s IH]; [reflexivity|]. rewrite append_cons, IH. reflexivity. Qed.

Lemma append_assoc (a b c : string) : ((a ++ b) ++ c)%string = (a ++ (b ++ c))%string.
Proof.
  induction a as [|x a IH]; [reflexivity|].
  rewrite !append_cons, IH. reflexivity.
Qed.

Lemma a_string_add (i d : nat) : a_string (i + d) = (a_string i ++ a_string d)%string.
Proof.
  induction i as [|i IH]; [reflexivity|].
  cbn [Nat.add a_string]. rewrite append_cons, IH. reflexivity.
Qed.

Lemma app_name_add (i d : nat) : app_name (i + d) = (app_name i ++ a_string d)%string.
Proof. unfold app_name. rewrite a_string_add, append_assoc. reflexivity. Qed.

Lemma strlen_a_string (i : nat) : strlen (a_string i) = i.
Proof.
  induction i as [|i IH]; [reflexivity|].
  unfold strlen in *. cbn. rewrite IH. reflexivity.
Qed.

Lemma app_name_inj (i j : nat) : app_name i = app_name j -> i = j.
Proof.
  unfold app_name. rewrite !append_cons, !append_nil. intros H.
  injection H as H. rewrite <- (strlen_a_string i), <- (strlen_a_string j), H.
  reflexivity.
Qed.

(** The longer name agrees with the shorter one over the shorter one's
    length ... *)
Lemma longer_matches_shorter (i d : nat) :
  strncmp (app_name (i + d)) (app_name i) (strlen (app_name i)) = 0.
Proof.
  rewrite app_name_add.
  rewrite <- (append_empty_r (app_name i)) at 2.
  rewrite <- (Nat.add_0_r (strlen (app_name i))).
  rewrite strncmp_app by apply app_name_nul_free. reflexivity.
Qed.

Lemma strlen_append (a b : string) : strlen (a ++ b) = (strlen a + strlen b)%nat.
Proof.
  unfold strlen. induction a as [|x a IH]; [reflexivity|].
  rewrite append_cons. cbn [String.length]. rewrite IH. reflexivity.
Qed.

(** ... but the shorter name differs from the longer one over the longer
    one's length. *)
Lemma shorter_differs_from_longer (i d : nat) :
  strncmp (app_name i) (app_name (i + S d)) (strlen (app_name (i + S d))) <> 0.
Proof.
  rewrite app_name_add, strlen_append, strlen_a_string.
  rewrite <- (append_empty_r (app_name i)) at 1.
  rewrite strncmp_app by apply app_name_nul_free.
  cbn. discriminate.
Qed.

Lemma bucket_of_range (jhash : string -> Z -> Z) (key : string) :
  0 <= bucket_of jhash key < CONTEXT_PROVIDER_HT_SIZE.
Proof.
  unfold bucket_of.
  change (CONTEXT_PROVIDER_HT_SIZE - 1) with (Z.ones 12).
  rewrite Z.land_ones by lia.
  change CONTEXT_PROVIDER_HT_SIZE with (2 ^ 12).
  apply Z.mod_pos_bound. lia.
Qed.

(** Whatever the hash function, two of the 4097 names "$app.", "$app.a",
    "$app.aa", ... fall into the same of the 4096 buckets. *)
Lemma bucket_collision (jhash : string -> Z -> Z) :
  exists i d : nat,
    bucket_of jhash (app_name i) = bucket_of jhash (app_name (i + S d)).
Proof.
  destruct (nat_pigeonhole
              (fun i => Z.to_nat (bucket_of jhash (app_name i))) 4097 4096)
    as (i & j & Hij & Hf).
  - lia.
  - intros i _. pose proof (bucket_of_range jhash (app_name i)) as Hr.
    change CONTEXT_PROVIDER_HT_SIZE with 4096 in Hr. lia.
  - exists i, (j - S i)%nat.
    replace (i + S (j - S i))%nat with j by lia.
    pose proof (bucket_of_range jhash (app_name i)).
    pose proof (bucket_of_range jhash (app_name j)).
    lia.
Qed.

Section Collisions.

Variable jhash : string -> Z -> Z.

(** With the lock obtained, a well-formed name that [lookup] does not find
    is registered. *)
Lemma register_succeeds (p : lttng_ust_context_provider) (s : ust_state) :
  well_formed_name (provider_name p) ->
  lookup_provider_by_name jhash (context_provider_ht s) (provider_name p) = None ->
  fst (lttng_ust_context_provider_register jhash 0 p s) = 0.
Proof.
  intros Hwf Hnone.
  destruct (register_result jhash 0 p s) as [H|[H|H]]; [| |exact H]; exfalso.
  - destruct Hwf as [Hpre Hcol].
    unfold lttng_ust_context_provider_register in H.
    rewrite prefix_test_true in H by exact Hpre. cbn [negb] in H.
    rewrite strchr_well_formed in H by exact Hcol. cbn [ust_lock Z.eqb negb] in H.
    change (context_provider_ht (log_call (call_ust_lock 0) (lttng_ust_fixup_tls s)))
      with (context_provider_ht s) in H.
    rewrite Hnone in H. discriminate H.
  - apply register_busy_iff in H; [|exact Hwf].
    destruct H as [H|[q Hq]]; [apply H; reflexivity|].
    rewrite Hnone in Hq. discriminate Hq.
Qed.

Lemma lookup_empty_table (n : string) :
  lookup_provider_by_name jhash ∅ n = None.
Proof.
  apply lookup_None. intros p Hp. unfold hlist_head in Hp.
  rewrite lookup_empty in Hp. cbn in Hp. apply not_elem_of_nil in Hp.
  contradiction.
Qed.

(** The table after the first registration into the empty registry. *)
Lemma register_first (p : lttng_ust_context_provider) :
  well_formed_name (provider_name p) ->
  fst (lttng_ust_context_provider_register jhash 0 p ust_init) = 0
  /\ context_provider_ht (snd (lttng_ust_context_provider_register jhash 0 p ust_init))
     = {[ bucket_of jhash (provider_name p) := [p] ]}.
Proof.
  intros Hwf.
  assert (Hok : fst (lttng_ust_context_provider_register jhash 0 p ust_init) = 0).
  { apply register_succeeds; [exact Hwf|]. apply lookup_empty_table. }
  split; [exact Hok|].
  destruct (register_success jhash 0 p ust_init Hok) as (_ & _ & _ & Hht & _).
  rewrite Hht. cbn [ust_init context_provider_ht]. unfold hlist_head.
  rewrite lookup_empty. reflexivity.
Qed.

(** [lookup_provider_by_name] compares only the key's length of a
    registered name ([strncmp] over [len] characters), so a registered
    provider whose name properly extends the key counts as a match when
    both names hash to the same bucket.  [bucket_collision] shows that such
    a pair of well-formed names exists for every hash function.  The two
    theorems below run the code on such a pair. *)

(** C3: the result -EBUSY is not confined to the two cases of the claim.
    With the lock obtained and only a provider named [app_name (i + S d)]
    registered, so that no registered provider bears the name
    [app_name i], registering [app_name i] still ends in -EBUSY: the
    lookup takes the longer name in the same bucket for a match. *)
Theorem register_busy_without_same_name :
  exists p q : lttng_ust_context_provider,
    well_formed_name (provider_name p)
    /\ well_formed_name (provider_name q)
    /\ fst (lttng_ust_context_provider_register jhash 0 q ust_init) = 0
    /\ (forall (b : Z) (r : lttng_ust_context_provider),
          r ∈ hlist_head
                (context_provider_ht
                   (snd (lttng_ust_context_provider_register jhash 0 q ust_init))) b ->
          provider_name r <> provider_name p)
    /\ fst (lttng_ust_context_provider_register jhash 0 p
              (snd (lttng_ust_context_provider_register jhash 0 q ust_init)))
       = - EBUSY.
Proof.
  destruct (bucket_collision jhash) as (i & d & Hb).
  exists (sample_provider 1 (app_name i)), (sample_provider 2 (app_name (i + S d))).
  destruct (register_first (sample_provider 2 (app_name (i + S d))))
    as [Hok Hht]; [apply app_name_well_formed|].
  cbn [sample_provider provider_name] in Hht |- *.
  split; [apply app_name_well_formed|]. split; [apply app_name_well_formed|].
  split; [exact Hok|]. rewrite Hht. split.
  - intros b r Hr Hname. unfold hlist_head in Hr.
    destruct (decide (b = bucket_of jhash (app_name (i + S d)))) as [->|Hne].
    + rewrite lookup_singleton_eq in Hr. cbn in Hr.
      apply list_elem_of_singleton in Hr. subst r.
      cbn [sample_provider provider_name] in Hname.
      apply app_name_inj in Hname. lia.
    + rewrite lookup_singleton_ne in Hr by congruence. cbn in Hr.
      apply not_elem_of_nil in Hr. exact Hr.
  - apply register_busy_iff; [apply app_name_well_formed|]. right.
    rewrite Hht. cbn [sample_provider provider_name].
    rewrite lookup_by_key, name_key_bare by apply app_name_no_separator.
    rewrite Hb. unfold hlist_head. rewrite lookup_singleton_eq.
    cbn [default from_option id List.find sample_provider provider_name].
    rewrite longer_matches_shorter. cbn. eauto.
Qed.

(** C7: the lookup of a qualified name does not always return the
    provider registered under the bare name.  With [app_name i] registered
    first and [app_name (i + S d)] second (both registrations succeed, and
    the first provider is still on its chain), the qualified name
    [app_name i ++ ":instance"] finds the second provider, whose name is not
    the part before the ':'. *)
Theorem lookup_finds_longer_name :
  exists p q : lttng_ust_context_provider,
    well_formed_name (provider_name p)
    /\ well_formed_name (provider_name q)
    /\ provider_name q <> provider_name p
    /\ fst (lttng_ust_context_provider_register jhash 0 p ust_init) = 0
    /\ fst (lttng_ust_context_provider_register jhash 0 q
              (snd (lttng_ust_context_provider_register jhash 0 p ust_init))) = 0
    /\ p ∈ hlist_head
             (context_provider_ht
                (snd (lttng_ust_context_provider_register jhash 0 q
                        (snd (lttng_ust_context_provider_register jhash 0 p ust_init)))))
             (bucket_of jhash (provider_name p))
    /\ lookup_provider_by_name jhash
         (context_provider_ht
            (snd (lttng_ust_context_provider_register jhash 0 q
                    (snd (lttng_ust_context_provider_register jhash 0 p ust_init)))))
         (provider_name p ++ ":instance")
       = Some q.
Proof.
  destruct (bucket_collision jhash) as (i & d & Hb).
  set (p := sample_provider 1 (app_name i)).
  set (q := sample_provider 2 (app_name (i + S d))).
  exists p, q.
  destruct (register_first p) as [Hp Hht1]; [apply app_name_well_formed|].
  assert (Hq : fst (lttng_ust_context_provider_register jhash 0 q
                      (snd (lttng_ust_context_provider_register jhash 0 p ust_init))) = 0).
  { apply register_succeeds; [apply app_name_well_formed|].
    rewrite Hht1. apply lookup_None. intros r Hr.
    cbn [q p sample_provider provider_name] in Hr |- *.
    rewrite name_key_bare in Hr |- * by apply app_name_no_separator.
    rewrite <- Hb in Hr. unfold hlist_head in Hr.
    rewrite lookup_singleton_eq in Hr. cbn in Hr.
    apply list_elem_of_singleton in Hr. subst r.
    cbn [sample_provider provider_name].
    apply shorter_differs_from_longer. }
  destruct (register_success jhash 0 q _ Hq) as (_ & _ & _ & Hht2 & _).
  rewrite Hht1 in Hht2. cbn [q p sample_provider provider_name] in Hht2.
  rewrite <- Hb in Hht2. unfold hlist_head in Hht2.
  rewrite lookup_singleton_eq in Hht2. cbn [default from_option id] in Hht2.
  split; [apply app_name_well_formed|]. split; [apply app_name_well_formed|].
  split.
  { cbn [q p sample_provider provider_name]. intros E.
    apply app_name_inj in E. lia. }
  split; [exact Hp|]. split; [exact Hq|].
  rewrite Hht2. cbn [p sample_provider provider_name]. split.
  - unfold hlist_head. rewrite lookup_insert_eq. cbn.
    apply list_elem_of_further, list_elem_of_here.
  - rewrite lookup_qualified by apply app_name_no_separator.
    rewrite lookup_by_key, name_key_bare by apply app_name_no_separator.
    unfold hlist_head. rewrite lookup_insert_eq.
    cbn [default from_option id List.find].
    change (provider_name q) with (app_name (i + S d)).
    rewrite longer_matches_shorter. reflexivity.
Qed.

End Collisions.

(** ** Part 2: the context field builder *)

Section BuilderFacts.

Variable jhash : string -> Z -> Z.

Lemma find_context_spec (fields : list lttng_ust_ctx_field) (fname : string) :
  lttng_find_context fields fname = true
  <-> exists f, f ∈ fields /\ name (event_field f) = Some fname.
Proof.
  unfold lttng_find_context. rewrite existsb_exists. split.
  - intros (f & Hin & Hf). exists f. split.
    + apply list_elem_of_In. exact Hin.
    + apply bool_decide_eq_true in Hf. exact Hf.
  - intros (f & Hin & Hf). exists f. split.
    + apply list_elem_of_In. exact Hin.
    + apply bool_decide_eq_true. exact Hf.
Qed.

(** C4: when the array already holds a field named [fname], the builder
    returns -EEXIST at once: the array is the same and so is the allocator,
    its trace included (no allocation was requested). *)
Theorem add_app_context_duplicate
    (append_ret : Z) (ht : gmap Z (list lttng_ust_context_provider))
    (fname : string) (fields : list lttng_ust_ctx_field) (h : heap) :
  (exists f, f ∈ fields /\ name (event_field f) = Some fname) ->
  lttng_ust_add_app_context_to_ctx_rcu jhash append_ret ht fname (Some fields) h
  = {| add_ret := - EEXIST; add_ctx := Some fields; add_heap := h |}.
Proof.
  intros Hdup. apply find_context_spec in Hdup.
  unfold lttng_ust_add_app_context_to_ctx_rcu. rewrite Hdup. reflexivity.
Qed.

(** Runs the builder symbolically: one goal per exit path, with the
    result [r] replaced by the record that path returns. *)
Ltac builder_paths r Er h Hnew :=
  let lv := fresh "lv" in
  let nx := fresh "nx" in
  let oc := fresh "oc" in
  let mc := fresh "mc" in
  let Ea := fresh "Ea" in
  unfold lttng_ust_add_app_context_to_ctx_rcu in Er;
  unfold already_present in Hnew; rewrite Hnew in Er;
  destruct h as [lv nx oc mc];
  unfold zmalloc, strdup, alloc, lttng_context_add_rcu in Er;
  cbn -[Z.eqb Z.add free] in Er;
  repeat match type of Er with
         | context [match ?o with [] => _ | _ :: _ => _ end] =>
             is_var o; destruct o as [|[|] o]; cbn -[Z.eqb Z.add free] in Er
         end;
  try (match type of Er with
       | context [Z.eqb ?a 0] => destruct (Z.eqb a 0) eqn:Ea
       end;
       cbn -[Z.eqb Z.add free] in Er;
       try change (0 =? 0) with true in Er;
       rewrite ?Ea in Er;
       cbn -[Z.eqb Z.add free] in Er);
  subst r;
  unfold free; cbn -[Z.eqb Z.add];
  repeat (rewrite Z.eqb_refl; cbn -[Z.eqb Z.add]);
  rewrite <- ?app_assoc; cbn [app].

(** Decides whether [false] occurs in an explicit list of outcomes. *)
Ltac outcome_list :=
  rewrite ?not_elem_of_cons, ?elem_of_cons, ?elem_of_nil;
  first [ tauto | intuition discriminate ].



(** The duplicate path, for any array. *)
Lemma add_app_context_present
    (append_ret : Z) (ht : gmap Z (list lttng_ust_context_provider))
    (fname : string) (ctx : option (list lttng_ust_ctx_field)) (h : heap) :
  already_present ctx fname = true ->
  lttng_ust_add_app_context_to_ctx_rcu jhash append_ret ht fname ctx h
  = {| add_ret := - EEXIST; add_ctx := ctx; add_heap := h |}.
Proof.
  intros Hdup. unfold lttng_ust_add_app_context_to_ctx_rcu.
  unfold already_present in Hdup. rewrite Hdup. reflexivity.
Qed.


(** C9 (as amended): the builder never looks at the shape of the name and
    produces no -EINVAL of its own.  Its result is 0, or -EEXIST on a
    duplicate, or -ENOMEM when one of its four allocations fails, or else
    the non-zero result of the append primitive, returned unchanged; so
    -EINVAL is returned only when the primitive itself returns it.  For
    every name, prefixed or not, with or without ':', that is not yet in
    the array, the call succeeds when the allocations and the primitive
    do, and publishes the field, bound to the no-op stand-ins when the
    lookup finds no provider. *)
Theorem add_app_context_no_name_validation
    (append_ret : Z) (ht : gmap Z (list lttng_ust_context_provider))
    (fname : string) (ctx : option (list lttng_ust_ctx_field)) (h : heap) :
  (add_ret (lttng_ust_add_app_context_to_ctx_rcu jhash append_ret ht fname ctx h) = 0
   \/ (already_present ctx fname = true
       /\ add_ret (lttng_ust_add_app_context_to_ctx_rcu jhash append_ret ht fname ctx h)
          = - EEXIST)
   \/ ((false ∈ take 4 (outcomes h))
       /\ add_ret (lttng_ust_add_app_context_to_ctx_rcu jhash append_ret ht fname ctx h)
          = - ENOMEM)
   \/ (append_ret <> 0
       /\ add_ret (lttng_ust_add_app_context_to_ctx_rcu jhash append_ret ht fname ctx h)
          = append_ret))
  /\ (add_ret (lttng_ust_add_app_context_to_ctx_rcu jhash append_ret ht fname ctx h)
      = - EINVAL -> append_ret = - EINVAL)
  /\ (already_present ctx fname = false ->
      false ∉ take 4 (outcomes h) ->
      append_ret = 0 ->
      add_ret (lttng_ust_add_app_context_to_ctx_rcu jhash append_ret ht fname ctx h) = 0
      /\ exists f : lttng_ust_ctx_field,
           add_ctx (lttng_ust_add_app_context_to_ctx_rcu jhash append_ret ht fname ctx h)
           = Some (default [] ctx ++ [f])%list
           /\ name (event_field f) = Some fname
           /\ (lookup_provider_by_name jhash ht fname = None ->
               field_triple f = dummy_triple)).
Proof.
  remember (lttng_ust_add_app_context_to_ctx_rcu jhash append_ret ht fname ctx h)
    as r eqn:Er.
  destruct (already_present ctx fname) eqn:Hnew.
  - rewrite add_app_context_present in Er by exact Hnew. subst r. cbn.
    split; [right; left; split; reflexivity|].
    split; [discriminate|discriminate].
  - assert (Hcases :
      (add_ret r = 0
       /\ (false ∉ take 4 (outcomes h))
       /\ append_ret = 0
       /\ exists f, add_ctx r = Some (default [] ctx ++ [f])%list
                    /\ name (event_field f) = Some fname
                    /\ (lookup_provider_by_name jhash ht fname = None ->
                        field_triple f = dummy_triple))
      \/ ((false ∈ take 4 (outcomes h)) /\ add_ret r = - ENOMEM)
      \/ ((false ∉ take 4 (outcomes h)) /\ append_ret <> 0 /\ add_ret r = append_ret)).
    { clear -Er Hnew. builder_paths r Er h Hnew.
      all: try apply Z.eqb_neq in Ea; try apply Z.eqb_eq in Ea.
      all: first
        [ right; left; (split; [outcome_list|reflexivity])
        | right; right; (split; [outcome_list|split; [assumption|reflexivity]])
        | left; (split; [reflexivity|]); (split; [outcome_list|]);
          (split; [assumption|]);
          destruct (lookup_provider_by_name jhash ht fname);
          eexists; (split; [reflexivity|]); (split; [reflexivity|]);
          intros Hnone; first [discriminate Hnone | reflexivity] ]. }
    destruct Hcases as [(H0 & Hok & Ha & Hf)|[(Hf & Hr)|(Hok & Ha & Hr)]].
    + split; [left; exact H0|]. split.
      * rewrite H0. discriminate.
      * intros _ _ _. split; [exact H0|exact Hf].
    + split; [right; right; left; split; assumption|]. split.
      * rewrite Hr. discriminate.
      * intros _ Hno. contradiction.
    + split; [right; right; right; split; assumption|]. split.
      * rewrite Hr. intros E. exact E.
      * intros _ _ Hz. contradiction.
Qed.

End BuilderFacts.

(** ** The spec's example scenarios and instances of the theorems *)

(** Scenario 1: register, register again (busy), unregister, register. *)
Example scenario_register_twice :
  fst (lttng_ust_context_provider_register sample_hash 0 myprov ust_init) = 0
  /\ fst (lttng_ust_context_provider_register sample_hash 0
            (sample_provider 8 "$app.myprov") registry_with_myprov) = - EBUSY
  /\ fst (lttng_ust_context_provider_register sample_hash 0 myprov
            (lttng_ust_context_provider_unregister 0 myprov registry_with_myprov))
     = 0.
Proof. vm_compute. repeat split. Qed.

(** Scenarios 2 and 3: names that are refused. *)
Example scenario_invalid_names :
  fst (lttng_ust_context_provider_register sample_hash 0
         (sample_provider 1 "not.app.prefixed") ust_init) = - EINVAL
  /\ fst (lttng_ust_context_provider_register sample_hash 0
            (sample_provider 1 "$app.has:colon") ust_init) = - EINVAL.
Proof. vm_compute. split; reflexivity. Qed.

(** A failed lock is reported like a name collision. *)
Example scenario_lock_busy :
  fst (lttng_ust_context_provider_register sample_hash (-1) myprov ust_init)
  = - EBUSY.
Proof. reflexivity. Qed.

(** Scenario 4: a qualified name is bound to the registered provider. *)
Example scenario_qualified_name :
  (fun r => (add_ret r,
             (fun f => get_value f 0) <$> (add_ctx r ≫= last)))
    (lttng_ust_add_app_context_to_ctx_rcu sample_hash 0
       (context_provider_ht registry_with_myprov)
       "$app.myprov:instanceA" None heap_ok)
  = (0, Some (LTTNG_UST_DYNAMIC_TYPE_S64, 7)).
Proof. vm_compute. reflexivity. Qed.

(** Scenario 6: the same name twice. *)
Example scenario_duplicate :
  (fun r => (add_ret r, length <$> add_ctx r))
    (lttng_ust_add_app_context_to_ctx_rcu sample_hash 0 ∅ "$app.dup"
       (add_ctx (lttng_ust_add_app_context_to_ctx_rcu sample_hash 0 ∅
                   "$app.dup" None heap_ok))
       heap_ok)
  = (- EEXIST, Some 1%nat).
Proof. vm_compute. reflexivity. Qed.

(** A name that [register] would refuse is accepted by the builder. *)
Example scenario_unvalidated_name :
  (fun r => (add_ret r, (fun f => get_size f 0) <$> (add_ctx r ≫= last)))
    (lttng_ust_add_app_context_to_ctx_rcu sample_hash 0 ∅
       "no prefix:and a colon" None heap_ok)
  = (0, Some 0).
Proof. vm_compute. reflexivity. Qed.

Lemma register_rejects_invalid_name_witness :
  (~ starts_with "$app." (provider_name (sample_provider 1 "not.app.prefixed"))
   \/ contains_char ":" (provider_name (sample_provider 1 "not.app.prefixed")))
  /\ fst (lttng_ust_context_provider_register sample_hash 0
            (sample_provider 1 "not.app.prefixed") ust_init) = - EINVAL.
Proof.
  assert (H : ~ starts_with "$app."
                  (provider_name (sample_provider 1 "not.app.prefixed"))).
  { intros H. apply app_prefix_test in H. vm_compute in H. discriminate H. }
  split; [left; exact H|].
  apply (register_rejects_invalid_name sample_hash 0
           (sample_provider 1 "not.app.prefixed") ust_init).
  left. exact H.
Defined.

Lemma add_app_context_duplicate_witness :
  (exists f, f ∈ ctx_with_dup /\ name (event_field f) = Some "$app.dup")
  /\ lttng_ust_add_app_context_to_ctx_rcu sample_hash 0 ∅ "$app.dup"
       (Some ctx_with_dup) heap_ok
     = {| add_ret := - EEXIST; add_ctx := Some ctx_with_dup; add_heap := heap_ok |}.
Proof.
  assert (H : exists f, f ∈ ctx_with_dup /\ name (event_field f) = Some "$app.dup").
  { eexists. split; [apply list_elem_of_here|reflexivity]. }
  split; [exact H|].
  apply (add_app_context_duplicate sample_hash 0 ∅ "$app.dup" ctx_with_dup heap_ok).
  exact H.
Defined.



(** * Further properties of the code *)

(** ** The dynamic type table *)

Lemma dynamic_type_field_None_iff (k : Z) :
  lttng_ust_dynamic_type_field k = None
  <-> k < 0 \/ k >= _NR_LTTNG_UST_DYNAMIC_TYPES.
Proof.
  split; [|apply dynamic_type_field_out_of_range].
  intros Hnone.
  destruct (decide (0 <= k < _NR_LTTNG_UST_DYNAMIC_TYPES)) as [Hin|Hout]; [|lia].
  destruct (dynamic_type_field_in_range k Hin) as (f & Hf & _).
  rewrite Hf in Hnone. discriminate Hnone.
Qed.

(** X1: [lttng_ust_dynamic_type_choices] returns 0 and hands out the table
    that [lttng_ust_dynamic_type_field] indexes, with its true length:
    every index below the advertised count holds a non-NULL descriptor,
    the one [lttng_ust_dynamic_type_field] returns for that index, and
    [lttng_ust_dynamic_type_field] returns NULL exactly on the integers
    outside the advertised range. *)
Theorem dynamic_type_choices_agree_with_field :
  fst (fst lttng_ust_dynamic_type_choices) = 0
  /\ snd (fst lttng_ust_dynamic_type_choices)
     = LTTNG_ARRAY_SIZE (snd lttng_ust_dynamic_type_choices)
  /\ (forall k : Z,
        0 <= k < snd (fst lttng_ust_dynamic_type_choices) ->
        exists f, snd lttng_ust_dynamic_type_choices !! Z.to_nat k = Some (Some f)
                  /\ lttng_ust_dynamic_type_field k = Some f)
  /\ (forall k : Z,
        lttng_ust_dynamic_type_field k = None
        <-> k < 0 \/ k >= snd (fst lttng_ust_dynamic_type_choices)).
Proof.
  split; [reflexivity|]. split; [reflexivity|]. split.
  - intros k Hk. cbn [lttng_ust_dynamic_type_choices fst snd] in *.
    destruct (dynamic_type_field_in_range k Hk) as (f & Hf & Hslot & _).
    exists f. split; assumption.
  - intros k. apply dynamic_type_field_None_iff.
Qed.

(** X2: the tag enumeration and the field table agree kind by kind: the
    label of the enumeration entry for kind k is the name of the field
    descriptor for kind k with an underscore in front; and the twelve field
    names are pairwise different, so a field name determines its kind. *)
Theorem dt_enum_labels_match_field_names :
  (forall kind : lttng_ust_dynamic_type,
     exists e f fname,
       dt_enum !! Z.to_nat (ordinal kind) = Some (Some e)
       /\ lttng_ust_dynamic_type_field (ordinal kind) = Some f
       /\ name f = Some fname
       /\ entry_string e = String "_" fname)
  /\ (forall (k1 k2 : Z) (f1 f2 : lttng_ust_event_field),
        lttng_ust_dynamic_type_field k1 = Some f1 ->
        lttng_ust_dynamic_type_field k2 = Some f2 ->
        name f1 = name f2 -> k1 = k2).
Proof.
  split.
  - intros kind. destruct kind; do 3 eexists; vm_compute; repeat split.
  - assert (R : forall k f, lttng_ust_dynamic_type_field k = Some f ->
                  0 <= k < 12
                  /\ (name <$> lttng_ust_dynamic_type_field k) = Some (name f)).
    { intros k f Hf. split.
      - destruct (decide (0 <= k < 12)) as [H|H]; [exact H|].
        rewrite dynamic_type_field_out_of_range in Hf
          by (unfold _NR_LTTNG_UST_DYNAMIC_TYPES; lia).
        discriminate Hf.
      - rewrite Hf. reflexivity. }
    intros k1 k2 f1 f2 H1 H2 Hname.
    destruct (R k1 f1 H1) as [Hk1 E1]. destruct (R k2 f2 H2) as [Hk2 E2].
    rewrite Hname in E1. clear H1 H2 Hname R.
    table_index k1; table_index k2; try reflexivity;
      exfalso; vm_compute in E1, E2; congruence.
Qed.

(** ** The provider registry *)

Lemma find_cons_cases {A : Type} (f : A -> bool) (x : A) (l : list A) :
  List.find f (x :: l) = Some x \/ List.find f (x :: l) = List.find f l.
Proof. cbn [List.find]. destruct (f x); [left|right]; reflexivity. Qed.

Lemma find_filter_None {A : Type} (f : A -> bool) (P : A -> Prop)
    `{forall x, Decision (P x)} (l : list A) :
  List.find f l = None -> List.find f (filter P l) = None.
Proof.
  induction l as [|x l IH]; [reflexivity|].
  cbn [List.find]. destruct (f x) eqn:Ex; [discriminate|].
  intros Hl. rewrite filter_cons. destruct (decide (P x)).
  - cbn [List.find]. rewrite Ex. apply IH. exact Hl.
  - apply IH. exact Hl.
Qed.

Lemma find_filter_Some {A : Type} (f : A -> bool) (P : A -> Prop)
    `{forall x, Decision (P x)} (l : list A) (y : A) :
  List.find f l = Some y -> P y -> List.find f (filter P l) = Some y.
Proof.
  induction l as [|x l IH]; [discriminate|].
  cbn [List.find]. destruct (f x) eqn:Ex.
  - intros [= ->] Hy. rewrite filter_cons. destruct (decide (P y)); [|contradiction].
    cbn [List.find]. rewrite Ex. reflexivity.
  - intros Hl Hy. rewrite filter_cons. destruct (decide (P x)).
    + cbn [List.find]. rewrite Ex. apply IH; assumption.
    + apply IH; assumption.
Qed.

Lemma filter_all {A : Type} (P : A -> Prop) `{forall x, Decision (P x)}
    (l : list A) :
  (forall x, x ∈ l -> P x) -> filter P l = l.
Proof.
  induction l as [|x l IH]; intros Hall; [reflexivity|].
  rewrite filter_cons. destruct (decide (P x)) as [_|Hn].
  - f_equal. apply IH. intros y Hy. apply Hall, list_elem_of_further, Hy.
  - exfalso. apply Hn, Hall, list_elem_of_here.
Qed.

Lemma names_filter_NoDup (P : lttng_ust_context_provider -> Prop)
    `{forall x, Decision (P x)} (l : list lttng_ust_context_provider) :
  NoDup (provider_name <$> l) -> NoDup (provider_name <$> filter P l).
Proof.
  induction l as [|x l IH]; [intros _; constructor|].
  rewrite fmap_cons, NoDup_cons. intros [Hx Hl].
  rewrite filter_cons. destruct (decide (P x)); [|apply IH; exact Hl].
  rewrite fmap_cons, NoDup_cons. split; [|apply IH; exact Hl].
  intros Hin. apply Hx. apply list_elem_of_fmap in Hin.
  destruct Hin as (y & Hy & Hyin). apply list_elem_of_filter in Hyin.
  apply list_elem_of_fmap. exists y. split; [exact Hy|apply Hyin].
Qed.

Lemma strncmp_sym_zero (a b : string) (n : nat) :
  strncmp a b n = 0 -> strncmp b a n = 0.
Proof.
  revert a b. induction n as [|n IH]; intros a b; [reflexivity|].
  cbn [strncmp]. destruct (Ascii.eqb (char_at a) (char_at b)) eqn:E.
  - apply Ascii.eqb_eq in E. rewrite <- E, Ascii.eqb_refl. cbn [negb].
    destruct (Ascii.eqb (char_at a) NUL); [reflexivity|]. apply IH.
  - cbn [negb]. intros H. apply char_diff_zero in H.
    rewrite H, Ascii.eqb_refl in E. discriminate E.
Qed.

Lemma nul_free_key_bytes (s : string) (n : nat) :
  nul_free s -> nul_free (key_bytes s n).
Proof.
  revert s. induction n as [|n IH]; intros s Hs; [destruct s; exact I|].
  destruct s as [|c s]; [exact I|]. destruct Hs as [Hc Hs].
  cbn [key_bytes nul_free]. split; [exact Hc|apply IH; exact Hs].
Qed.

Lemma nul_free_name_key (n : string) : nul_free n -> nul_free (name_key n).
Proof. intros H. unfold name_key. apply nul_free_key_bytes. exact H. Qed.

Section RegistryLaws.

Variable jhash : string -> Z -> Z.

(** Lookup reads the table only through the chains. *)
Lemma lookup_same_chains (ht1 ht2 : gmap Z (list lttng_ust_context_provider))
    (n : string) :
  (forall b, hlist_head ht1 b = hlist_head ht2 b) ->
  lookup_provider_by_name jhash ht1 n = lookup_provider_by_name jhash ht2 n.
Proof. intros H. rewrite !lookup_by_key, H. reflexivity. Qed.

Lemma register_failure_frame (lock_ret : Z) (p : lttng_ust_context_provider)
    (s : ust_state) :
  fst (lttng_ust_context_provider_register jhash lock_ret p s) <> 0 ->
  same_registry s (snd (lttng_ust_context_provider_register jhash lock_ret p s)).
Proof.
  intros Hret.
  destruct (register_result jhash lock_ret p s) as [H|[H|H]].
  - unfold lttng_ust_context_provider_register in *.
    destruct (negb _); [repeat split|].
    destruct (strchr _ _); [repeat split|].
    cbn [ust_lock] in *. destruct (negb _); [repeat split|].
    destruct (lookup_provider_by_name _ _ _); [repeat split|discriminate H].
  - apply register_busy_frame. exact H.
  - contradiction.
Qed.

Lemma hlist_head_insert (ht : gmap Z (list lttng_ust_context_provider))
    (b b' : Z) (l : list lttng_ust_context_provider) :
  hlist_head (<[b := l]> ht) b' = if decide (b = b') then l else hlist_head ht b'.
Proof.
  unfold hlist_head. rewrite lookup_insert. destruct (decide (b = b')); reflexivity.
Qed.

(** X3: [register] returns 0, -EINVAL or -EBUSY.  Unless it returns 0, the
    hash table and both slot sets are exactly as before (no partial
    registration).  When it returns 0, the provider has become the head of
    the chain of the bucket its name hashes to, every other chain is
    untouched, and each slot set binds the provider's name to the
    provider's callbacks and every other name as before. *)
Theorem register_all_or_nothing
    (lock_ret : Z) (p : lttng_ust_context_provider) (s : ust_state) :
  (fst (lttng_ust_context_provider_register jhash lock_ret p s) = 0
   \/ fst (lttng_ust_context_provider_register jhash lock_ret p s) = - EINVAL
   \/ fst (lttng_ust_context_provider_register jhash lock_ret p s) = - EBUSY)
  /\ (fst (lttng_ust_context_provider_register jhash lock_ret p s) <> 0 ->
      same_registry s (snd (lttng_ust_context_provider_register jhash lock_ret p s)))
  /\ (fst (lttng_ust_context_provider_register jhash lock_ret p s) = 0 ->
      (forall b : Z,
         hlist_head (context_provider_ht
                       (snd (lttng_ust_context_provider_register jhash lock_ret p s))) b
         = if decide (bucket_of jhash (provider_name p) = b)
           then p :: hlist_head (context_provider_ht s) b
           else hlist_head (context_provider_ht s) b)
      /\ (forall n : string,
            session_providers
              (snd (lttng_ust_context_provider_register jhash lock_ret p s)) !! n
            = if decide (provider_name p = n) then Some (provider_triple p)
              else session_providers s !! n)
      /\ (forall n : string,
            event_notifier_group_providers
              (snd (lttng_ust_context_provider_register jhash lock_ret p s)) !! n
            = if decide (provider_name p = n) then Some (provider_triple p)
              else event_notifier_group_providers s !! n)).
Proof.
  split; [|split].
  - destruct (register_result jhash lock_ret p s) as [H|[H|H]]; tauto.
  - apply register_failure_frame.
  - intros Hok.
    destruct (register_success jhash lock_ret p s Hok)
      as (_ & _ & _ & Hht & Hs & Hn).
    rewrite Hht, Hs, Hn. split; [|split].
    + intros b. rewrite hlist_head_insert.
      destruct (decide _) as [<-|]; reflexivity.
    + intros n. apply lookup_insert.
    + intros n. apply lookup_insert.
Qed.

(** The trace a run of [register] adds. *)
Lemma register_trace (lock_ret : Z) (p : lttng_ust_context_provider)
    (s : ust_state) :
  exists delta,
    calls (snd (lttng_ust_context_provider_register jhash lock_ret p s))
    = (calls s ++ delta)%list
    /\ (delta = [call_fixup_tls]
        /\ fst (lttng_ust_context_provider_register jhash lock_ret p s) = - EINVAL
        \/ delta = [call_fixup_tls; call_ust_lock lock_ret; call_ust_unlock]
           /\ fst (lttng_ust_context_provider_register jhash lock_ret p s) = - EBUSY
        \/ delta = [call_fixup_tls; call_ust_lock 0;
                    call_hlist_add_head (bucket_of jhash (provider_name p))
                      (provider_addr p);
                    call_set_session_provider (provider_name p);
                    call_set_event_notifier_group_provider (provider_name p);
                    call_ust_unlock]
           /\ fst (lttng_ust_context_provider_register jhash lock_ret p s) = 0).
Proof.
  unfold lttng_ust_context_provider_register.
  destruct (negb (strncmp _ _ _ =? 0)).
  { exists [call_fixup_tls]. split; [reflexivity|left; split; reflexivity]. }
  destruct (strchr _ _).
  { exists [call_fixup_tls]. split; [reflexivity|left; split; reflexivity]. }
  cbn [ust_lock]. destruct (lock_ret =? 0) eqn:El; cbn [negb].
  - apply Z.eqb_eq in El. subst lock_ret.
    destruct (lookup_provider_by_name _ _ _).
    + eexists. split; [cbn; rewrite <- !app_assoc; reflexivity|].
      right; left. split; reflexivity.
    + eexists. split; [cbn; rewrite <- !app_assoc; reflexivity|].
      right; right. split; [|reflexivity].
      unfold bucket_of. rewrite key_bytes_all. reflexivity.
  - eexists. split; [cbn; rewrite <- !app_assoc; reflexivity|].
    right; left. split; reflexivity.
Qed.

Lemma new_calls_app (s s' : ust_state) (delta : list ust_call) :
  calls s' = (calls s ++ delta)%list -> new_calls s s' = delta.
Proof. intros H. unfold new_calls. rewrite H, drop_app_length. reflexivity. Qed.

Lemma unregister_trace (lock_ret : Z) (p : lttng_ust_context_provider)
    (s : ust_state) :
  exists delta,
    calls (lttng_ust_context_provider_unregister lock_ret p s)
    = (calls s ++ delta)%list
    /\ (delta = [call_fixup_tls; call_ust_lock lock_ret; call_ust_unlock]
        /\ same_registry s (lttng_ust_context_provider_unregister lock_ret p s)
        \/ delta = [call_fixup_tls; call_ust_lock 0;
                    call_set_session_provider (provider_name p);
                    call_set_event_notifier_group_provider (provider_name p);
                    call_hlist_del (provider_addr p);
                    call_ust_unlock]).
Proof.
  unfold lttng_ust_context_provider_unregister. cbn [ust_lock].
  destruct (lock_ret =? 0) eqn:El; cbn [negb].
  - apply Z.eqb_eq in El. subst lock_ret.
    eexists. split; [cbn; rewrite <- !app_assoc; reflexivity|].
    right. reflexivity.
  - eexists. split; [cbn; rewrite <- !app_assoc; reflexivity|].
    left. split; [reflexivity|repeat split].
Qed.

(** X4: [register] keeps the lock discipline on every path, and so does
    [unregister] of a provider that is linked on a chain whenever the lock
    is obtained (what [cds_hlist_del] requires): the lock is requested at
    most once, it is released exactly when it was requested (also when
    [ust_lock] reported a failure) and the release is the last call of the
    run; and the hash table and the slot sets change only in a run that
    obtained the lock. *)
Theorem lock_released_on_every_path
    (lock_ret : Z) (p : lttng_ust_context_provider) (s : ust_state) :
  lock_discipline s (snd (lttng_ust_context_provider_register jhash lock_ret p s))
  /\ ((lock_ret = 0 -> exists b : Z, p ∈ hlist_head (context_provider_ht s) b) ->
      lock_discipline s (lttng_ust_context_provider_unregister lock_ret p s)).
Proof.
  split.
  - destruct (register_trace lock_ret p s) as (delta & Hc & Hcases).
    unfold lock_discipline. rewrite (new_calls_app _ _ _ Hc).
    split; [exact Hc|].
    destruct Hcases as [[-> Hr]|[[-> Hr]|[-> Hr]]]; cbn.
    + repeat split; try lia; try congruence.
      intros Hch. exfalso. apply Hch. apply register_failure_frame.
      rewrite Hr. discriminate.
    + repeat split; try lia.
      intros Hch. exfalso. apply Hch. apply register_failure_frame.
      rewrite Hr. discriminate.
    + repeat split; try lia.
      intros _. apply list_elem_of_further, list_elem_of_here.
  - intros _.
    destruct (unregister_trace lock_ret p s) as (delta & Hc & Hcases).
    unfold lock_discipline. rewrite (new_calls_app _ _ _ Hc).
    split; [exact Hc|].
    destruct Hcases as [[-> Hsame]| ->]; cbn.
    + repeat split; try lia. intros Hch. contradiction.
    + repeat split; try lia.
      intros _. apply list_elem_of_further, list_elem_of_here.
Qed.

Lemma chain_names_distinct_register (lock_ret : Z)
    (p : lttng_ust_context_provider) (s : ust_state) :
  chain_names_distinct (context_provider_ht s) ->
  chain_names_distinct
    (context_provider_ht (snd (lttng_ust_context_provider_register jhash lock_ret p s))).
Proof.
  intros Hd.
  destruct (decide (fst (lttng_ust_context_provider_register jhash lock_ret p s) = 0))
    as [Hok|Hfail].
  - destruct (register_success jhash lock_ret p s Hok)
      as ([_ Hcol] & _ & Hnone & Hht & _).
    rewrite Hht. intros b. rewrite hlist_head_insert.
    destruct (decide _) as [<-|]; [|apply Hd].
    rewrite fmap_cons, NoDup_cons. split; [|apply Hd].
    intros Hin. apply list_elem_of_fmap in Hin. destruct Hin as (r & Hr & Hrin).
    rewrite lookup_None in Hnone.
    rewrite name_key_bare in Hnone by (apply strchr_well_formed; exact Hcol).
    apply (Hnone r Hrin). rewrite <- Hr. apply strncmp_refl.
  - destruct (register_failure_frame lock_ret p s Hfail) as [Hht _].
    rewrite Hht. exact Hd.
Qed.

Lemma chain_names_distinct_unregister (lock_ret : Z)
    (p : lttng_ust_context_provider) (s : ust_state) :
  chain_names_distinct (context_provider_ht s) ->
  chain_names_distinct
    (context_provider_ht (lttng_ust_context_provider_unregister lock_ret p s)).
Proof.
  intros Hd. unfold lttng_ust_context_provider_unregister. cbn [ust_lock].
  destruct (negb _); [exact Hd|]. intros b.
  cbn [ust_unlock log_call cds_hlist_del context_provider_ht
         lttng_ust_context_set_session_provider
         lttng_ust_context_set_event_notifier_group_provider
         lttng_ust_fixup_tls].
  rewrite hlist_head_fmap by reflexivity.
  apply names_filter_NoDup. apply Hd.
Qed.

Lemma reachable_invariant (s : ust_state) :
  reachable jhash s ->
  registry_ok jhash (context_provider_ht s)
  /\ chain_names_distinct (context_provider_ht s).
Proof.
  induction 1 as [|lock_ret p s _ [IH1 IH2]|lock_ret p s b _ [IH1 IH2] _].
  - split; [apply registry_ok_init|].
    intros b. unfold hlist_head. cbn. rewrite lookup_empty. constructor.
  - split; [apply registry_ok_register|apply chain_names_distinct_register];
      assumption.
  - split; [apply registry_ok_unregister|apply chain_names_distinct_unregister];
      assumption.
Qed.

(** X5: in every registry state that registrations and unregistrations
    produce from the initial state, each provider on a chain has a name
    that begins with "$app." and holds no ':', sits in the bucket its name
    hashes to, and no two providers on the chains bear the same name: two
    chain positions with equal names are the same position. *)
Theorem reachable_registry_invariant (s : ust_state) :
  reachable jhash s ->
  (forall (b : Z) (p : lttng_ust_context_provider),
     p ∈ hlist_head (context_provider_ht s) b ->
     well_formed_name (provider_name p)
     /\ b = bucket_of jhash (provider_name p))
  /\ (forall (b1 b2 : Z) (i1 i2 : nat) (p1 p2 : lttng_ust_context_provider),
        hlist_head (context_provider_ht s) b1 !! i1 = Some p1 ->
        hlist_head (context_provider_ht s) b2 !! i2 = Some p2 ->
        provider_name p1 = provider_name p2 ->
        b1 = b2 /\ i1 = i2).
Proof.
  intros Hr. destruct (reachable_invariant s Hr) as [Hok Hd]. split.
  - intros b p Hp. destruct (Hok b p Hp). split; assumption.
  - intros b1 b2 i1 i2 p1 p2 H1 H2 Hname.
    assert (Hb1 : b1 = bucket_of jhash (provider_name p1)).
    { apply Hok. eapply list_elem_of_lookup_2. exact H1. }
    assert (Hb2 : b2 = bucket_of jhash (provider_name p2)).
    { apply Hok. eapply list_elem_of_lookup_2. exact H2. }
    assert (Hb : b1 = b2) by congruence. clear Hb1 Hb2. subst b2.
    split; [reflexivity|].
    apply (NoDup_lookup _ i1 i2 (provider_name p1) (Hd b1)).
    + rewrite list_lookup_fmap, H1. reflexivity.
    + rewrite list_lookup_fmap, H2, Hname. reflexivity.
Qed.

(** X6: a provider that was just registered is found, by its own name and
    by every qualified name built on it, and what is found is that very
    provider. *)
Theorem register_then_lookup
    (lock_ret : Z) (p : lttng_ust_context_provider) (s : ust_state)
    (suffix : string) :
  fst (lttng_ust_context_provider_register jhash lock_ret p s) = 0 ->
  lookup_provider_by_name jhash
    (context_provider_ht (snd (lttng_ust_context_provider_register jhash lock_ret p s)))
    (provider_name p) = Some p
  /\ lookup_provider_by_name jhash
       (context_provider_ht (snd (lttng_ust_context_provider_register jhash lock_ret p s)))
       (provider_name p ++ String ":" suffix) = Some p.
Proof.
  intros Hok.
  destruct (register_success jhash lock_ret p s Hok) as ([_ Hcol] & -> & _).
  pose proof (lookup_after_register jhash p s suffix Hok) as Hq.
  split; [|exact Hq].
  rewrite lookup_qualified in Hq by (apply strchr_well_formed; exact Hcol).
  exact Hq.
Qed.

(** The table after an unregistration that obtained the lock. *)
Lemma unregister_chains (p : lttng_ust_context_provider) (s : ust_state) (b : Z) :
  hlist_head (context_provider_ht (lttng_ust_context_provider_unregister 0 p s)) b
  = filter (fun q => provider_addr q <> provider_addr p)
      (hlist_head (context_provider_ht s) b).
Proof.
  unfold lttng_ust_context_provider_unregister.
  cbn [ust_lock Z.eqb negb ust_unlock log_call cds_hlist_del context_provider_ht
         lttng_ust_context_set_session_provider
         lttng_ust_context_set_event_notifier_group_provider
         lttng_ust_fixup_tls].
  apply hlist_head_fmap. reflexivity.
Qed.

Lemma unregister_failed_lock (lock_ret : Z) (p : lttng_ust_context_provider)
    (s : ust_state) :
  lock_ret <> 0 ->
  context_provider_ht (lttng_ust_context_provider_unregister lock_ret p s)
  = context_provider_ht s.
Proof.
  intros Hl. unfold lttng_ust_context_provider_unregister. cbn [ust_lock].
  apply Z.eqb_neq in Hl. rewrite Hl. reflexivity.
Qed.

(** X7: registering a provider and then unregistering it (both with the
    lock obtained) gives back the chains the registry had, provided no
    provider already on a chain lives at the new provider's address: every
    lookup answers as before the registration, both slot sets bind the
    provider's name to the no-op stand-ins, and the same provider can be
    registered again. *)
Theorem register_unregister_round_trip
    (p : lttng_ust_context_provider) (s : ust_state) :
  fst (lttng_ust_context_provider_register jhash 0 p s) = 0 ->
  (forall (b : Z) (q : lttng_ust_context_provider),
     q ∈ hlist_head (context_provider_ht s) b ->
     provider_addr q <> provider_addr p) ->
  (forall b : Z,
     hlist_head
       (context_provider_ht
          (lttng_ust_context_provider_unregister 0 p
             (snd (lttng_ust_context_provider_register jhash 0 p s)))) b
     = hlist_head (context_provider_ht s) b)
  /\ (forall n : string,
        lookup_provider_by_name jhash
          (context_provider_ht
             (lttng_ust_context_provider_unregister 0 p
                (snd (lttng_ust_context_provider_register jhash 0 p s)))) n
        = lookup_provider_by_name jhash (context_provider_ht s) n)
  /\ session_providers
       (lttng_ust_context_provider_unregister 0 p
          (snd (lttng_ust_context_provider_register jhash 0 p s)))
       !! provider_name p = Some dummy_triple
  /\ event_notifier_group_providers
       (lttng_ust_context_provider_unregister 0 p
          (snd (lttng_ust_context_provider_register jhash 0 p s)))
       !! provider_name p = Some dummy_triple
  /\ fst (lttng_ust_context_provider_register jhash 0 p
            (lttng_ust_context_provider_unregister 0 p
               (snd (lttng_ust_context_provider_register jhash 0 p s)))) = 0.
Proof.
  intros Hok Hfresh.
  destruct (register_success jhash 0 p s Hok) as (Hwf & _ & Hnone & Hht & _).
  assert (Hchains : forall b : Z,
            hlist_head
              (context_provider_ht
                 (lttng_ust_context_provider_unregister 0 p
                    (snd (lttng_ust_context_provider_register jhash 0 p s)))) b
            = hlist_head (context_provider_ht s) b).
  { intros b. rewrite unregister_chains, Hht, hlist_head_insert.
    destruct (decide _) as [<-|].
    - rewrite filter_cons. destruct (decide _) as [Hne|_]; [contradiction|].
      apply filter_all. intros q Hq. eapply Hfresh. exact Hq.
    - apply filter_all. intros q Hq. eapply Hfresh. exact Hq. }
  assert (Hlookup : forall n : string,
            lookup_provider_by_name jhash
              (context_provider_ht
                 (lttng_ust_context_provider_unregister 0 p
                    (snd (lttng_ust_context_provider_register jhash 0 p s)))) n
            = lookup_provider_by_name jhash (context_provider_ht s) n).
  { intros n. apply lookup_same_chains. exact Hchains. }
  split; [exact Hchains|]. split; [exact Hlookup|].
  split; [apply lookup_insert_eq|]. split; [apply lookup_insert_eq|].
  apply register_succeeds; [exact Hwf|]. rewrite Hlookup. exact Hnone.
Qed.

(** X8: what the unregistration of a provider that is linked on a chain
    (whenever the lock is obtained, what [cds_hlist_del] requires) does to
    lookups.  A name that found nothing still finds nothing; a name that
    found a provider living elsewhere than the unregistered one still finds
    that provider; and once the lock was obtained no name finds a provider
    at the unregistered address any more. *)
Theorem unregister_lookup_effects
    (lock_ret : Z) (p : lttng_ust_context_provider) (s : ust_state) (b : Z)
    (n : string) :
  (lock_ret = 0 -> p ∈ hlist_head (context_provider_ht s) b) ->
  (lookup_provider_by_name jhash (context_provider_ht s) n = None ->
   lookup_provider_by_name jhash
     (context_provider_ht (lttng_ust_context_provider_unregister lock_ret p s)) n
   = None)
  /\ (forall q : lttng_ust_context_provider,
        lookup_provider_by_name jhash (context_provider_ht s) n = Some q ->
        provider_addr q <> provider_addr p ->
        lookup_provider_by_name jhash
          (context_provider_ht (lttng_ust_context_provider_unregister lock_ret p s)) n
        = Some q)
  /\ (lock_ret = 0 ->
      forall q : lttng_ust_context_provider,
        lookup_provider_by_name jhash
          (context_provider_ht (lttng_ust_context_provider_unregister lock_ret p s)) n
        = Some q ->
        provider_addr q <> provider_addr p).
Proof.
  intros _.
  destruct (decide (lock_ret = 0)) as [->|Hne].
  - split; [|split].
    + rewrite !lookup_by_key, unregister_chains. apply find_filter_None.
    + intros q. rewrite !lookup_by_key, unregister_chains. intros Hq Hne.
      apply (find_filter_Some _
               (fun r => provider_addr r <> provider_addr p) _ q Hq Hne).
    + intros _ q Hq. apply lookup_Some in Hq. destruct Hq as [Hin _].
      rewrite unregister_chains in Hin. apply list_elem_of_filter in Hin.
      apply Hin.
  - rewrite unregister_failed_lock by exact Hne.
    split; [tauto|]. split; [tauto|]. intros Hz. contradiction.
Qed.

(** X9: a registration attempt, whatever its result, never makes a name
    unfound: after it, a lookup returns what it returned before, or the
    provider of the attempt. *)
Theorem register_preserves_lookups
    (lock_ret : Z) (p : lttng_ust_context_provider) (s : ust_state) (n : string) :
  (lookup_provider_by_name jhash
     (context_provider_ht (snd (lttng_ust_context_provider_register jhash lock_ret p s))) n
   = Some p
   \/ lookup_provider_by_name jhash
        (context_provider_ht (snd (lttng_ust_context_provider_register jhash lock_ret p s))) n
      = lookup_provider_by_name jhash (context_provider_ht s) n)
  /\ (is_Some (lookup_provider_by_name jhash (context_provider_ht s) n) ->
      is_Some (lookup_provider_by_name jhash
                 (context_provider_ht
                    (snd (lttng_ust_context_provider_register jhash lock_ret p s))) n)).
Proof.
  assert (H : lookup_provider_by_name jhash
                (context_provider_ht
                   (snd (lttng_ust_context_provider_register jhash lock_ret p s))) n
              = Some p
              \/ lookup_provider_by_name jhash
                   (context_provider_ht
                      (snd (lttng_ust_context_provider_register jhash lock_ret p s))) n
                 = lookup_provider_by_name jhash (context_provider_ht s) n).
  { destruct (decide (fst (lttng_ust_context_provider_register jhash lock_ret p s) = 0))
      as [Hok|Hfail].
    - destruct (register_success jhash lock_ret p s Hok) as (_ & _ & _ & Hht & _).
      rewrite Hht, !lookup_by_key, hlist_head_insert.
      destruct (decide _) as [E|_];
        [rewrite E; apply find_cons_cases|right; reflexivity].
    - destruct (register_failure_frame lock_ret p s Hfail) as [Hht _].
      rewrite Hht. right. reflexivity. }
  split; [exact H|].
  intros Hsome. destruct H as [H|H]; rewrite H; [eauto|exact Hsome].
Qed.

(** X10: on a NUL-free name, [lookup_provider_by_name] returns a provider
    only from the chain of the key's bucket and only one whose name begins
    with the key (the part of the name before its first ':'); it returns
    NULL exactly when no provider on that chain has a name that begins with
    the key. *)
Theorem lookup_matches_by_prefix
    (ht : gmap Z (list lttng_ust_context_provider)) (n : string) :
  nul_free n ->
  (forall p : lttng_ust_context_provider,
     lookup_provider_by_name jhash ht n = Some p ->
     p ∈ hlist_head ht (bucket_of jhash (name_key n))
     /\ starts_with (name_key n) (provider_name p))
  /\ (lookup_provider_by_name jhash ht n = None
      <-> forall q : lttng_ust_context_provider,
            q ∈ hlist_head ht (bucket_of jhash (name_key n)) ->
            ~ starts_with (name_key n) (provider_name q)).
Proof.
  intros Hn. pose proof (nul_free_name_key n Hn) as Hk.
  assert (Hcmp : forall q,
            strncmp (provider_name q) (name_key n) (strlen (name_key n)) = 0
            <-> starts_with (name_key n) (provider_name q)).
  { intros q. rewrite <- (strncmp_prefix _ _ Hk).
    split; apply strncmp_sym_zero. }
  split.
  - intros p Hp. apply lookup_Some in Hp. destruct Hp as [Hin Hz].
    split; [exact Hin|]. apply Hcmp. exact Hz.
  - rewrite lookup_None. split; intros H q Hq.
    + rewrite <- Hcmp. apply H. exact Hq.
    + rewrite Hcmp. apply H. exact Hq.
Qed.

(** X11: a qualified name finds exactly the provider registered under its
    bare part whenever no other provider on that provider's chain has a
    name that begins with the bare part. *)
Theorem qualified_lookup_exact
    (ht : gmap Z (list lttng_ust_context_provider))
    (p : lttng_ust_context_provider) (suffix : string) :
  nul_free (provider_name p) ->
  ~ contains_char ":" (provider_name p) ->
  p ∈ hlist_head ht (bucket_of jhash (provider_name p)) ->
  (forall q : lttng_ust_context_provider,
     q ∈ hlist_head ht (bucket_of jhash (provider_name p)) ->
     starts_with (provider_name p) (provider_name q) -> q = p) ->
  lookup_provider_by_name jhash ht (provider_name p ++ String ":" suffix) = Some p.
Proof.
  intros Hnul Hcol Hin Huniq.
  apply lookup_unique_match;
    [apply strchr_well_formed; exact Hcol|exact Hin|].
  intros q Hq Hz. apply Huniq; [exact Hq|].
  apply strncmp_prefix; [exact Hnul|]. apply strncmp_sym_zero. exact Hz.
Qed.

(** X12: in a registry state produced by registrations and
    unregistrations, registering a well-formed name that a provider on a
    chain already bears ends in -EBUSY, whether or not the lock is
    obtained, and leaves the registry as it was. *)
Theorem register_duplicate_name_busy
    (lock_ret : Z) (p q : lttng_ust_context_provider) (s : ust_state) (b : Z) :
  reachable jhash s ->
  well_formed_name (provider_name p) ->
  q ∈ hlist_head (context_provider_ht s) b ->
  provider_name q = provider_name p ->
  fst (lttng_ust_context_provider_register jhash lock_ret p s) = - EBUSY
  /\ same_registry s (snd (lttng_ust_context_provider_register jhash lock_ret p s)).
Proof.
  intros Hr Hwf Hq Hname.
  destruct (reachable_invariant s Hr) as [Hok _].
  assert (Hbusy : fst (lttng_ust_context_provider_register jhash lock_ret p s)
                  = - EBUSY).
  { eapply register_same_name_busy; eassumption. }
  split; [exact Hbusy|]. apply register_busy_frame. exact Hbusy.
Qed.

End RegistryLaws.

(** ** The context field builder *)

(** One goal per exit path of the builder, as [builder_paths] above, for
    use outside that section. *)
Ltac builder_cases r Er h Hnew :=
  let lv := fresh "lv" in
  let nx := fresh "nx" in
  let oc := fresh "oc" in
  let mc := fresh "mc" in
  let Ea := fresh "Ea" in
  unfold lttng_ust_add_app_context_to_ctx_rcu in Er;
  unfold already_present in Hnew; rewrite Hnew in Er;
  destruct h as [lv nx oc mc];
  unfold zmalloc, strdup, alloc, lttng_context_add_rcu in Er;
  cbn -[Z.eqb Z.add free] in Er;
  repeat match type of Er with
         | context [match ?o with [] => _ | _ :: _ => _ end] =>
             is_var o; destruct o as [|[|] o]; cbn -[Z.eqb Z.add free] in Er
         end;
  try (match type of Er with
       | context [Z.eqb ?a 0] => destruct (Z.eqb a 0) eqn:Ea
       end;
       cbn -[Z.eqb Z.add free] in Er;
       try change (0 =? 0) with true in Er;
       rewrite ?Ea in Er;
       cbn -[Z.eqb Z.add free] in Er);
  subst r;
  unfold free; cbn -[Z.eqb Z.add];
  repeat (rewrite Z.eqb_refl; cbn -[Z.eqb Z.add]);
  rewrite <- ?app_assoc; cbn [app].

Ltac outcomes_listed :=
  rewrite ?not_elem_of_cons, ?elem_of_cons, ?elem_of_nil;
  first [ tauto | intuition discriminate ].

Section BuilderLaws.

Variable jhash : string -> Z -> Z.

(** The successful path in full. *)
Lemma add_app_context_success
    (append_ret : Z) (ht : gmap Z (list lttng_ust_context_provider))
    (fname : string) (ctx : option (list lttng_ust_ctx_field)) (h : heap) :
  already_present ctx fname = false ->
  false ∉ take 4 (outcomes h) ->
  append_ret = 0 ->
  exists f : lttng_ust_ctx_field,
    event_field f
    = {| name := Some fname; type := lttng_ust_type_dynamic; nowrite := 0 |}
    /\ field_triple f
       = match lookup_provider_by_name jhash ht fname with
         | Some provider => provider_triple provider
         | None => dummy_triple
         end
    /\ add_ret (lttng_ust_add_app_context_to_ctx_rcu jhash append_ret ht fname ctx h) = 0
    /\ add_ctx (lttng_ust_add_app_context_to_ctx_rcu jhash append_ret ht fname ctx h)
       = Some (default [] ctx ++ [f])%list
    /\ live (add_heap (lttng_ust_add_app_context_to_ctx_rcu jhash append_ret ht fname ctx h))
       = (next_addr h + 1 + 1 + 1 :: next_addr h + 1 + 1 :: next_addr h + 1
          :: next_addr h :: live h)
    /\ mem_calls (add_heap (lttng_ust_add_app_context_to_ctx_rcu jhash append_ret ht fname ctx h))
       = (mem_calls h ++ [mem_alloc obj_ctx_field (next_addr h);
                          mem_alloc obj_event_field (next_addr h + 1);
                          mem_alloc obj_field_name (next_addr h + 1 + 1);
                          mem_alloc obj_field_type (next_addr h + 1 + 1 + 1)])%list.
Proof.
  intros Hnew Hno Ha.
  remember (lttng_ust_add_app_context_to_ctx_rcu jhash append_ret ht fname ctx h)
    as r eqn:Er.
  revert Hno. builder_cases r Er h Hnew.
  all: try apply Z.eqb_neq in Ea; try contradiction.
  all: intros Hno;
    try (exfalso; apply Hno; outcomes_listed).
  all: destruct (lookup_provider_by_name jhash ht fname);
    eexists;
    (split; [|split; [|split; [|split; [reflexivity|split]]]]);
    reflexivity.
Qed.

(** A zero result is the successful path. *)
Lemma add_app_context_zero
    (append_ret : Z) (ht : gmap Z (list lttng_ust_context_provider))
    (fname : string) (ctx : option (list lttng_ust_ctx_field)) (h : heap) :
  add_ret (lttng_ust_add_app_context_to_ctx_rcu jhash append_ret ht fname ctx h) = 0 ->
  already_present ctx fname = false
  /\ (false ∉ take 4 (outcomes h))
  /\ append_ret = 0.
Proof.
  remember (lttng_ust_add_app_context_to_ctx_rcu jhash append_ret ht fname ctx h)
    as r eqn:Er.
  destruct (already_present ctx fname) eqn:Hnew.
  - rewrite add_app_context_present in Er by exact Hnew. subst r.
    intros H. discriminate H.
  - builder_cases r Er h Hnew.
    all: try apply Z.eqb_neq in Ea; try apply Z.eqb_eq in Ea.
    all: intros Hret; try discriminate Hret; try contradiction.
    all: split; [reflexivity|]; split; [outcomes_listed|assumption].
Qed.

(** X13: the builder returns 0 exactly when the name is not yet in the
    array, none of its four allocation requests fails and the append
    primitive returns 0.  On that path nothing is freed: the four blocks
    (field record, field description, name copy, type descriptor, acquired
    in this order) stay live on top of the blocks that were live before,
    and the array is the old one with one field more at its end. *)
Theorem add_app_context_success_path
    (append_ret : Z) (ht : gmap Z (list lttng_ust_context_provider))
    (fname : string) (ctx : option (list lttng_ust_ctx_field)) (h : heap) :
  (add_ret (lttng_ust_add_app_context_to_ctx_rcu jhash append_ret ht fname ctx h) = 0
   <-> already_present ctx fname = false
       /\ (false ∉ take 4 (outcomes h))
       /\ append_ret = 0)
  /\ (add_ret (lttng_ust_add_app_context_to_ctx_rcu jhash append_ret ht fname ctx h) = 0 ->
      exists delta : list mem_call,
        mem_calls (add_heap (lttng_ust_add_app_context_to_ctx_rcu jhash append_ret ht fname ctx h))
        = (mem_calls h ++ delta)%list
        /\ frees_of delta = []
        /\ fst <$> allocs_of delta
           = [obj_ctx_field; obj_event_field; obj_field_name; obj_field_type]
        /\ live (add_heap (lttng_ust_add_app_context_to_ctx_rcu jhash append_ret ht fname ctx h))
           = (rev (snd <$> allocs_of delta) ++ live h)%list
        /\ exists f : lttng_ust_ctx_field,
             add_ctx (lttng_ust_add_app_context_to_ctx_rcu jhash append_ret ht fname ctx h)
             = Some (default [] ctx ++ [f])%list
             /\ name (event_field f) = Some fname).
Proof.
  split; [split|].
  - apply add_app_context_zero.
  - intros (Hnew & Hno & Ha).
    destruct (add_app_context_success append_ret ht fname ctx h Hnew Hno Ha)
      as (f & _ & _ & Hret & _). exact Hret.
  - intros Hret.
    destruct (add_app_context_zero append_ret ht fname ctx h Hret)
      as (Hnew & Hno & Ha).
    destruct (add_app_context_success append_ret ht fname ctx h Hnew Hno Ha)
      as (f & Hev & _ & _ & Hctx & Hlive & Hcalls).
    eexists. split; [exact Hcalls|]. split; [reflexivity|].
    split; [reflexivity|]. split; [exact Hlive|].
    exists f. split; [exact Hctx|]. rewrite Hev. reflexivity.
Qed.

(** X14: registration and the builder compose, on the table a successful
    [register] call returns (before any further registration changes it):
    a context field built on that table for a qualified name on the
    provider's name that is not yet in the array is published (when the
    allocations and the append primitive succeed) with that provider's
    three callbacks. *)
Theorem registered_provider_is_bound
    (lock_ret : Z) (p : lttng_ust_context_provider) (s : ust_state)
    (suffix : string) (ctx : option (list lttng_ust_ctx_field)) (h : heap) :
  fst (lttng_ust_context_provider_register jhash lock_ret p s) = 0 ->
  already_present ctx (provider_name p ++ String ":" suffix) = false ->
  false ∉ take 4 (outcomes h) ->
  add_ret (lttng_ust_add_app_context_to_ctx_rcu jhash 0
             (context_provider_ht
                (snd (lttng_ust_context_provider_register jhash lock_ret p s)))
             (provider_name p ++ String ":" suffix) ctx h) = 0
  /\ exists f : lttng_ust_ctx_field,
       add_ctx (lttng_ust_add_app_context_to_ctx_rcu jhash 0
                  (context_provider_ht
                     (snd (lttng_ust_context_provider_register jhash lock_ret p s)))
                  (provider_name p ++ String ":" suffix) ctx h)
       = Some (default [] ctx ++ [f])%list
       /\ name (event_field f) = Some (provider_name p ++ String ":" suffix)%string
       /\ get_size f = provider_get_size p
       /\ record f = provider_record p
       /\ get_value f = provider_get_value p.
Proof.
  intros Hok Hnew Hno.
  destruct (register_success jhash lock_ret p s Hok) as (_ & Hl & _).
  subst lock_ret.
  destruct (add_app_context_success 0
              (context_provider_ht
                 (snd (lttng_ust_context_provider_register jhash 0 p s)))
              (provider_name p ++ String ":" suffix) ctx h Hnew Hno eq_refl)
    as (f & Hev & Htriple & Hret & Hctx & _).
  rewrite (lookup_after_register jhash p s suffix Hok) in Htriple.
  split; [exact Hret|]. exists f. split; [exact Hctx|].
  split; [rewrite Hev; reflexivity|].
  unfold field_triple, provider_triple in Htriple.
  injection Htriple as H1 H2 H3. repeat split; assumption.
Qed.


End BuilderLaws.

(** ** Instances of the further properties *)

Lemma init_chains_empty (b : Z) (q : lttng_ust_context_provider) :
  q ∈ hlist_head (context_provider_ht ust_init) b -> False.
Proof.
  unfold hlist_head. cbn. rewrite lookup_empty. cbn. apply not_elem_of_nil.
Qed.

Lemma myprov_well_formed : well_formed_name (provider_name myprov).
Proof.
  split.
  - exists "myprov". reflexivity.
  - apply strchr_None_not_contains. reflexivity.
Qed.

Lemma myprov_registered :
  fst (lttng_ust_context_provider_register sample_hash 0 myprov ust_init) = 0.
Proof. vm_compute. reflexivity. Qed.

Lemma registry_with_myprov_table :
  context_provider_ht registry_with_myprov
  = {[ bucket_of sample_hash (provider_name myprov) := [myprov] ]}.
Proof. apply register_first, myprov_well_formed. Qed.

Lemma registry_with_myprov_chain (b : Z) (q : lttng_ust_context_provider) :
  q ∈ hlist_head (context_provider_ht registry_with_myprov) b -> q = myprov.
Proof.
  rewrite registry_with_myprov_table. unfold hlist_head.
  destruct (decide (b = bucket_of sample_hash (provider_name myprov))) as [->|Hne].
  - rewrite lookup_singleton_eq. cbn. apply list_elem_of_singleton.
  - rewrite lookup_singleton_ne by congruence. cbn.
    intros H. apply not_elem_of_nil in H. contradiction.
Qed.

Lemma myprov_on_chain :
  myprov ∈ hlist_head (context_provider_ht registry_with_myprov)
             (bucket_of sample_hash (provider_name myprov)).
Proof.
  rewrite registry_with_myprov_table. unfold hlist_head.
  rewrite lookup_singleton_eq. cbn. apply list_elem_of_here.
Qed.

Lemma heap_ok_no_failure : false ∉ take 4 (outcomes heap_ok).
Proof. cbn. apply not_elem_of_nil. Qed.

Lemma reachable_registry_invariant_witness :
  reachable sample_hash registry_with_myprov
  /\ forall (b : Z) (p : lttng_ust_context_provider),
       p ∈ hlist_head (context_provider_ht registry_with_myprov) b ->
       well_formed_name (provider_name p)
       /\ b = bucket_of sample_hash (provider_name p).
Proof.
  assert (H : reachable sample_hash registry_with_myprov).
  { apply (reach_register sample_hash 0 myprov ust_init). apply reach_init. }
  split; [exact H|].
  apply (reachable_registry_invariant sample_hash registry_with_myprov H).
Defined.

Lemma register_then_lookup_witness :
  fst (lttng_ust_context_provider_register sample_hash 0 myprov ust_init) = 0
  /\ lookup_provider_by_name sample_hash (context_provider_ht registry_with_myprov)
       (provider_name myprov ++ ":instanceA") = Some myprov.
Proof.
  split; [exact myprov_registered|].
  apply (register_then_lookup sample_hash 0 myprov ust_init "instanceA"
           myprov_registered).
Defined.

Lemma register_unregister_round_trip_witness :
  fst (lttng_ust_context_provider_register sample_hash 0 myprov ust_init) = 0
  /\ fst (lttng_ust_context_provider_register sample_hash 0 myprov
            (lttng_ust_context_provider_unregister 0 myprov registry_with_myprov))
     = 0.
Proof.
  split; [exact myprov_registered|].
  apply (register_unregister_round_trip sample_hash myprov ust_init
           myprov_registered).
  intros b q Hq. exfalso. exact (init_chains_empty b q Hq).
Defined.

Lemma lookup_matches_by_prefix_witness :
  nul_free "$app.myprov:instanceA"
  /\ forall p : lttng_ust_context_provider,
       lookup_provider_by_name sample_hash (context_provider_ht registry_with_myprov)
         "$app.myprov:instanceA" = Some p ->
       p ∈ hlist_head (context_provider_ht registry_with_myprov)
             (bucket_of sample_hash (name_key "$app.myprov:instanceA"))
       /\ starts_with (name_key "$app.myprov:instanceA") (provider_name p).
Proof.
  assert (H : nul_free "$app.myprov:instanceA").
  { cbn. repeat split; discriminate. }
  split; [exact H|].
  apply (lookup_matches_by_prefix sample_hash
           (context_provider_ht registry_with_myprov) "$app.myprov:instanceA" H).
Defined.

Lemma qualified_lookup_exact_witness :
  lookup_provider_by_name sample_hash (context_provider_ht registry_with_myprov)
    (provider_name myprov ++ ":instanceA") = Some myprov.
Proof.
  apply (qualified_lookup_exact sample_hash
           (context_provider_ht registry_with_myprov) myprov "instanceA").
  - cbn. repeat split; discriminate.
  - apply myprov_well_formed.
  - exact myprov_on_chain.
  - intros q Hq _. exact (registry_with_myprov_chain _ q Hq).
Defined.

Lemma register_duplicate_name_busy_witness :
  fst (lttng_ust_context_provider_register sample_hash 0
         (sample_provider 8 "$app.myprov") registry_with_myprov) = - EBUSY
  /\ same_registry registry_with_myprov
       (snd (lttng_ust_context_provider_register sample_hash 0
               (sample_provider 8 "$app.myprov") registry_with_myprov)).
Proof.
  apply (register_duplicate_name_busy sample_hash 0
           (sample_provider 8 "$app.myprov") myprov registry_with_myprov
           (bucket_of sample_hash (provider_name myprov))).
  - apply (reach_register sample_hash 0 myprov ust_init). apply reach_init.
  - exact myprov_well_formed.
  - exact myprov_on_chain.
  - reflexivity.
Defined.

Lemma registered_provider_is_bound_witness :
  add_ret (lttng_ust_add_app_context_to_ctx_rcu sample_hash 0
             (context_provider_ht registry_with_myprov)
             (provider_name myprov ++ ":instanceA") None heap_ok) = 0.
Proof.
  apply (registered_provider_is_bound sample_hash 0 myprov ust_init "instanceA"
           None heap_ok myprov_registered eq_refl heap_ok_no_failure).
Defined.


(** ** Further instances *)

(** C9, the claim as first stated fails: on a well-formed name that is not
    in the array, with every allocation of the builder succeeding, the call
    returns -EINVAL when the append primitive returns -EINVAL; this failure
    is neither a duplicate nor an allocation failure of the builder. *)
Lemma add_app_context_einval_from_append :
  already_present None "$app.myprov" = false
  /\ (false ∉ take 4 (outcomes heap_ok))
  /\ add_ret (lttng_ust_add_app_context_to_ctx_rcu sample_hash (- EINVAL) ∅
                "$app.myprov" None heap_ok) = - EINVAL.
Proof.
  split; [reflexivity|]. split; [exact heap_ok_no_failure|].
  vm_compute. reflexivity.
Qed.

Lemma unregister_best_effort_witness :
  (0 = 0 -> myprov ∈ hlist_head (context_provider_ht registry_with_myprov)
                       (bucket_of sample_hash (provider_name myprov)))
  /\ (myprov ∉ hlist_head
                 (context_provider_ht
                    (lttng_ust_context_provider_unregister 0 myprov
                       registry_with_myprov))
                 (bucket_of sample_hash (provider_name myprov))).
Proof.
  split; [intros _; exact myprov_on_chain|].
  apply (unregister_best_effort 0 myprov registry_with_myprov
           (bucket_of sample_hash (provider_name myprov))
           (fun _ => myprov_on_chain)).
  reflexivity.
Defined.

Lemma lock_released_on_every_path_witness :
  lock_discipline registry_with_myprov
    (lttng_ust_context_provider_unregister 0 myprov registry_with_myprov).
Proof.
  apply (lock_released_on_every_path sample_hash 0 myprov registry_with_myprov).
  intros _. exists (bucket_of sample_hash (provider_name myprov)).
  exact myprov_on_chain.
Defined.

Lemma unregister_lookup_effects_witness :
  (0 = 0 -> myprov ∈ hlist_head (context_provider_ht registry_with_myprov)
                       (bucket_of sample_hash (provider_name myprov)))
  /\ (forall q : lttng_ust_context_provider,
        lookup_provider_by_name sample_hash
          (context_provider_ht
             (lttng_ust_context_provider_unregister 0 myprov registry_with_myprov))
          "$app.myprov:instanceA" = Some q ->
        provider_addr q <> provider_addr myprov).
Proof.
  split; [intros _; exact myprov_on_chain|].
  apply (unregister_lookup_effects sample_hash 0 myprov registry_with_myprov
           (bucket_of sample_hash (provider_name myprov)) "$app.myprov:instanceA"
           (fun _ => myprov_on_chain)).
  reflexivity.
Defined.
